(** * percona-everest-cli: command orchestration and payload translation

    A shallow embedding of the four command components of the repository
    (delete/mysql, provision/mysql, list/versions, password/reset) together
    with the properties stated about them.

    Conventions.
    - Go strings are [string]; a Go [int] is a [Z], the conversion to
      [int32] is written out with its wrap-around.
    - A Go pointer that may be nil is an [option]; a Go map is a [gmap].
    - Every command runs against collaborators (the Everest client, the
      Kubernetes client, the confirmation prompt, the JSON encoder, the
      quantity and version parsers).  They are not part of the repository:
      each is a [Variable] of the section that embeds the command, or a
      method of the class that embeds the Go interface.
    - Effects are recorded in a chronological trace of events threaded
      through a small state monad. *)

From Stdlib Require Import ZArith Lia.
From stdpp Require Import base list strings pretty gmap fin_maps sorting.

(** ** Errors

    [errors.New], [errors.Wrap] of github.com/pkg/errors and [errors.Join]
    of the standard library, with the message each one renders. *)

Inductive error : Type :=
| New (msg : string)
| Wrap (cause : error) (msg : string)
| Join (first second : error).

Fixpoint Error (e : error) : string :=
  match e with
  | New msg => msg
  | Wrap cause msg => msg +:+ ": " +:+ Error cause
  | Join first second => Error first +:+ "
" +:+ Error second
  end.

(** A Go pair [(value, err)] of which exactly one side is meaningful. *)
Inductive result (A : Type) : Type :=
| Ok (a : A)
| Err (e : error).
Arguments Ok {A} a.
Arguments Err {A} e.

Definition is_Err {A} (r : result A) : Prop :=
  match r with Err _ => True | Ok _ => False end.

(** ** Commands: a state monad over the trace of events *)

Definition Cmd (E A : Type) : Type := list E -> A * list E.

Definition cmd_ret {E A} (a : A) : Cmd E A := fun t => (a, t).

Definition cmd_bind {E A B} (k : A -> Cmd E B) (c : Cmd E A) : Cmd E B :=
  fun t => let '(a, t') := c t in k a t'.

#[global] Instance Cmd_ret {E} : MRet (Cmd E) := @cmd_ret E.
#[global] Instance Cmd_bind {E} : MBind (Cmd E) := @cmd_bind E.

(** [emit e] appends one event; [observe f] asks the environment for an
    answer that may depend on everything that happened so far. *)
Definition emit {E} (e : E) : Cmd E unit := fun t => (tt, t ++ [e]).

Definition observe {E A} (f : list E -> A) : Cmd E A := fun t => (f t, t).

(** The events a command adds to the trace it starts from. *)
Definition added_by {E A} (c : Cmd E A) (t : list E) : list E :=
  drop (length t) (snd (c t)).

Ltac run_cmd :=
  unfold mbind, mret, Cmd_bind, Cmd_ret, cmd_bind, cmd_ret, emit, observe in *;
  cbn in *.

Inductive level : Type := DebugLevel | InfoLevel.

(** * Package delete: the MySQL command *)

Module Delete.

(** MySQLConfig stores configuration for the MySQL command. *)
Record MySQLConfig : Type := {
  Name : string;
  KubernetesID : string;
  Everest_Endpoint : string;
  (** Force is true when we shall not prompt for removal. *)
  Force : bool
}.

Inductive Event : Type :=
| Logged (lvl : level) (msg : string)
| Asked (message : string)
| DeleteRequested (kubernetesID name : string).

(** The interface [everestClientConnector] as this package uses it: the
    answer of the control plane to a delete request, given the trace. *)
Class everestClientConnector : Type := {
  DeleteDBCluster : string -> string -> list Event -> option error
}.

Section Command.
(** [%q] of [fmt]: the Go-quoted rendering of a string. *)
Variable quoted : string -> string.
(** [survey.AskOne] on a [survey.Confirm]: the error it returns and the
    value it leaves in the answer variable, whose initial value it gets. *)
Variable survey_AskOne : string -> bool -> list Event -> option error * bool.
Context {everestClient : everestClientConnector}.

Record MySQL : Type := NewMySQL { config : MySQLConfig }.

Definition AskOne (message : string) (initial : bool)
  : Cmd Event (option error * bool) :=
  emit (Asked message) ;;
  observe (survey_AskOne message initial).

Definition callDeleteDBCluster (id name : string) : Cmd Event (option error) :=
  emit (DeleteRequested id name) ;;
  observe (DeleteDBCluster id name).

(** The part of [Run] after the confirmation gate. *)
Definition Run_delete (m : MySQL) : Cmd Event (option error) :=
  emit (Logged InfoLevel ("Deleting " +:+ quoted (Name (config m)) +:+ " cluster")) ;;
  err ← callDeleteDBCluster (KubernetesID (config m)) (Name (config m)) ;
  match err with
  | Some e => mret (Some e)
  | None =>
      emit (Logged InfoLevel ("Cluster " +:+ quoted (Name (config m))
                           +:+ " successfully deleted")) ;;
      mret None
  end.

Definition confirmMessage (m : MySQL) : string :=
  "Are you sure you want to remove the "
    +:+ quoted (Name (config m)) +:+ " database cluster?".

(** Run runs the MySQL command. *)
Definition Run (m : MySQL) : Cmd Event (option error) :=
  if negb (Force (config m)) then
    '(err, prompt) ← AskOne (confirmMessage m) false ;
    match err with
    | Some e => mret (Some e)
    | None =>
        if negb prompt then
          emit (Logged InfoLevel "Exiting") ;; mret None
        else Run_delete m
    end
  else Run_delete m.

Definition is_delete (e : Event) : bool :=
  match e with DeleteRequested _ _ => true | _ => false end.

(** C5. With [Force = false] and a negative answer to the confirmation
    prompt, [Run] returns no error and the events it adds to the trace are
    the prompt and one log line: no delete request is issued. *)
Theorem Run_declined_no_delete (m : MySQL) (t : list Event) :
  Force (config m) = false ->
  survey_AskOne (confirmMessage m) false (t ++ [Asked (confirmMessage m)])
    = (None, false) ->
  exists added,
    Run m t = (None, t ++ added) /\
    added = [Asked (confirmMessage m); Logged InfoLevel "Exiting"] /\
    forall id name, DeleteRequested id name ∉ added.
Proof.
  intros Hforce Hno. unfold Run. rewrite Hforce. cbn.
  unfold AskOne. run_cmd. rewrite Hno. cbn.
  eexists. split; [by rewrite <- app_assoc|]. split; [done|].
  intros id name Hin. by repeat (apply elem_of_cons in Hin as [?|Hin]; [done|]);
    apply elem_of_nil in Hin.
Qed.
(** ** Further behaviour of [Run] *)

Definition deletingLog (m : MySQL) : Event :=
  Logged InfoLevel ("Deleting " +:+ quoted (Name (config m)) +:+ " cluster").

Definition deletedLog (m : MySQL) : Event :=
  Logged InfoLevel ("Cluster " +:+ quoted (Name (config m)) +:+ " successfully deleted").

Definition deleteRequest (m : MySQL) : Event :=
  DeleteRequested (KubernetesID (config m)) (Name (config m)).

(** What the control plane answers to the request of [m] issued from the
    trace [t]. *)
Definition deleteAnswer (m : MySQL) (t : list Event) : option error :=
  DeleteDBCluster (KubernetesID (config m)) (Name (config m))
    (t ++ [deletingLog m; deleteRequest m]).

(** What the part of [Run] after the gate adds to the trace. *)
Definition deleteEvents (m : MySQL) (t : list Event) : list Event :=
  [deletingLog m; deleteRequest m]
    ++ match deleteAnswer m t with None => [deletedLog m] | Some _ => [] end.

Lemma Run_delete_spec (m : MySQL) (t : list Event) :
  Run_delete m t = (deleteAnswer m t, t ++ deleteEvents m t).
Proof.
  unfold Run_delete, callDeleteDBCluster, deleteEvents, deleteAnswer. run_cmd.
  rewrite <- !app_assoc. cbn.
  destruct (DeleteDBCluster _ _ _); cbn; by rewrite <- ?app_assoc.
Qed.

(** X1. With [Force] set, [Run] asks nothing: it logs, issues one delete
    request for the configured cluster and returns the answer of the
    control plane unchanged; the completion line is logged only when the
    answer is no error. *)
Theorem Run_forced (m : MySQL) (t : list Event) :
  Force (config m) = true ->
  Run m t = (deleteAnswer m t, t ++ deleteEvents m t) /\
  forall message, Asked message ∉ deleteEvents m t.
Proof.
  intros Hforce. unfold Run. rewrite Hforce. cbn. split; [apply Run_delete_spec|].
  intros message. unfold deleteEvents.
  destruct (deleteAnswer m t); cbn;
    rewrite ?elem_of_cons, elem_of_nil; unfold deletingLog, deleteRequest, deletedLog;
    intros Hin; repeat destruct Hin as [Hin|Hin]; done.
Qed.

(** X2. Without [Force], when the prompt returns no error and a positive
    answer, [Run] issues the delete request after the prompt and returns the
    answer of the control plane unchanged. *)
Theorem Run_confirmed (m : MySQL) (t : list Event) :
  Force (config m) = false ->
  survey_AskOne (confirmMessage m) false (t ++ [Asked (confirmMessage m)])
    = (None, true) ->
  Run m t = (deleteAnswer m (t ++ [Asked (confirmMessage m)]),
             t ++ Asked (confirmMessage m)
               :: deleteEvents m (t ++ [Asked (confirmMessage m)])).
Proof.
  intros Hforce Hyes. unfold Run. rewrite Hforce. cbn.
  unfold AskOne. run_cmd. rewrite Hyes. cbn.
  rewrite Run_delete_spec. by rewrite <- app_assoc.
Qed.

(** X3. Without [Force], an error of the prompt is returned unchanged,
    whatever the answer variable holds, and nothing but the prompt
    happens: no delete request is issued. *)
Theorem Run_prompt_error (m : MySQL) (t : list Event) (err : error) (prompt : bool) :
  Force (config m) = false ->
  survey_AskOne (confirmMessage m) false (t ++ [Asked (confirmMessage m)])
    = (Some err, prompt) ->
  Run m t = (Some err, t ++ [Asked (confirmMessage m)]).
Proof.
  intros Hforce Herr. unfold Run. rewrite Hforce. cbn.
  unfold AskOne. run_cmd. by rewrite Herr.
Qed.

(** The shapes the events of one [Run] can take. *)
Lemma Run_added_cases (m : MySQL) (t : list Event) :
  let asked := Asked (confirmMessage m) in
  (added_by (Run m) t = deleteEvents m t /\
   fst (Run m t) = deleteAnswer m t) \/
  (added_by (Run m) t = asked :: deleteEvents m (t ++ [asked]) /\
   fst (Run m t) = deleteAnswer m (t ++ [asked])) \/
  (added_by (Run m) t = [asked] /\ is_Some (fst (Run m t))) \/
  (added_by (Run m) t = [asked; Logged InfoLevel "Exiting"] /\ fst (Run m t) = None).
Proof.
  intros asked. unfold added_by, Run.
  destruct (Force (config m)) eqn:Hforce; cbn.
  - left. rewrite Run_delete_spec. cbn. by rewrite drop_app_length.
  - unfold AskOne. run_cmd. fold asked.
    destruct (survey_AskOne (confirmMessage m) false (t ++ [asked]))
      as [[err|] [|]] eqn:Hask; cbn.
    + right; right; left. rewrite drop_app_length. eauto.
    + right; right; left. rewrite drop_app_length. eauto.
    + right; left. rewrite Run_delete_spec. cbn.
      by rewrite <- app_assoc, drop_app_length.
    + right; right; right. by rewrite <- app_assoc, drop_app_length.
Qed.

(** X4. Whatever the configuration, the prompt and the control plane do,
    one [Run] issues at most one delete request, and only for the
    configured cluster in the configured Kubernetes context. *)
Theorem Run_deletes_only_the_target (m : MySQL) (t : list Event) :
  length (filter (fun e => is_delete e = true) (added_by (Run m) t)) <= 1 /\
  forall id name,
    DeleteRequested id name ∈ added_by (Run m) t ->
    id = KubernetesID (config m) /\ name = Name (config m).
Proof.
  assert (Hevents : forall t0,
    filter (fun e => is_delete e = true) (deleteEvents m t0) = [deleteRequest m]).
  { intros t0. unfold deleteEvents. by destruct (deleteAnswer m t0). }
  assert (Hin : forall id name l,
    filter (fun e => is_delete e = true) l = [deleteRequest m] ->
    DeleteRequested id name ∈ l ->
    id = KubernetesID (config m) /\ name = Name (config m)).
  { intros id name l Hl Hel.
    assert (Hf : DeleteRequested id name ∈ filter (fun e => is_delete e = true) l)
      by (by apply list_elem_of_filter).
    rewrite Hl in Hf. apply list_elem_of_singleton in Hf. by injection Hf as -> ->. }
  destruct (Run_added_cases m t) as [[-> _]|[[-> _]|[[-> _]|[-> _]]]].
  - rewrite Hevents. split; [done|]. intros id name. by apply Hin.
  - split.
    + rewrite filter_cons_False by (cbn; done). by rewrite Hevents.
    + intros id name Hel. apply elem_of_cons in Hel as [?|Hel]; [done|].
      by eapply Hin; [apply Hevents|].
  - split; [rewrite filter_cons_False by (cbn; done); cbn; lia|]. intros id name Hel.
    apply list_elem_of_singleton in Hel. done.
  - split; [rewrite !filter_cons_False by (cbn; done); cbn; lia|]. intros id name Hel.
    repeat (apply elem_of_cons in Hel as [?|Hel]; [done|]). by apply elem_of_nil in Hel.
Qed.


End Command.

(** ** A concrete run: the operator declines *)

#[local] Instance sample_everestClient : everestClientConnector :=
  {| DeleteDBCluster := fun _ _ _ => None |}.

Definition sample_quoted (s : string) : string :=
  String (Ascii.ascii_of_nat 34) s +:+ String (Ascii.ascii_of_nat 34) EmptyString.

(** A prompt that is always answered with no. *)
Definition declined (message : string) (initial : bool) (t : list Event)
  : option error * bool := (None, false).

Definition sample_config : MySQLConfig :=
  {| Name := "db"; KubernetesID := "k8s"; Everest_Endpoint := "http://127.0.0.1:8081";
     Force := false |}.

(** C5 at [sample_config], from an empty trace. *)
Lemma Run_declined_no_delete_witness :
  exists added,
    Run sample_quoted declined (NewMySQL sample_config) [] = (None, added) /\
    added = [Asked (confirmMessage sample_quoted (NewMySQL sample_config));
             Logged InfoLevel "Exiting"] /\
    forall id name, DeleteRequested id name ∉ added.
Proof.
  exact (Run_declined_no_delete sample_quoted declined (NewMySQL sample_config) []
           eq_refl eq_refl).
Defined.

(** ** Further concrete runs *)

Definition forced_config : MySQLConfig :=
  {| Name := "db"; KubernetesID := "k8s"; Everest_Endpoint := "http://127.0.0.1:8081";
     Force := true |}.

(** A prompt that is always answered with yes, and one that is interrupted. *)
Definition confirmed (message : string) (initial : bool) (t : list Event)
  : option error * bool := (None, true).

Definition interrupted (message : string) (initial : bool) (t : list Event)
  : option error * bool := (Some (New "interrupt"), initial).

(** X1 at [forced_config]. *)
Lemma Run_forced_witness :
  Run sample_quoted declined (NewMySQL forced_config) []
    = (None, [deletingLog sample_quoted (NewMySQL forced_config);
              DeleteRequested "k8s" "db";
              deletedLog sample_quoted (NewMySQL forced_config)]) /\
  forall message,
    Asked message ∉ deleteEvents sample_quoted (NewMySQL forced_config) [].
Proof.
  exact (Run_forced sample_quoted declined (NewMySQL forced_config) [] eq_refl).
Defined.

(** X2 at [sample_config] with a positive answer. *)
Lemma Run_confirmed_witness :
  Run sample_quoted confirmed (NewMySQL sample_config) []
    = (None, [Asked (confirmMessage sample_quoted (NewMySQL sample_config));
              deletingLog sample_quoted (NewMySQL sample_config);
              DeleteRequested "k8s" "db";
              deletedLog sample_quoted (NewMySQL sample_config)]).
Proof.
  exact (Run_confirmed sample_quoted confirmed (NewMySQL sample_config) []
           eq_refl eq_refl).
Defined.

(** X3 at [sample_config] with an interrupted prompt. *)
Lemma Run_prompt_error_witness :
  Run sample_quoted interrupted (NewMySQL sample_config) []
    = (Some (New "interrupt"),
       [Asked (confirmMessage sample_quoted (NewMySQL sample_config))]).
Proof.
  exact (Run_prompt_error sample_quoted interrupted (NewMySQL sample_config) []
           (New "interrupt") false eq_refl eq_refl).
Defined.


End Delete.

(** * Package provision: the MySQL command *)

Module Provision.

(** MySQLConfig stores configuration for the MySQL command. *)
Record MySQLConfig : Type := {
  Name : string;
  KubernetesID : string;
  Everest_Endpoint : string;
  DB_Version : string;
  Nodes : Z;
  CPU : string;
  Memory : string;
  Disk : string;
  ExternalAccess : bool
}.

(** The conversion [int32(x)] of a Go [int]: the low 32 bits, signed. *)
Definition int32 (x : Z) : Z := (x + 2 ^ 31) mod 2 ^ 32 - 2 ^ 31.

(** The named constants of the operator API that the command uses. *)
Inductive EngineType : Type := DatabaseEnginePXC.
Inductive ProxyType : Type := ProxyTypeHAProxy.
Inductive ExposeType : Type := ExposeTypeInternal | ExposeTypeExternal.

Record TypeMeta : Type := { APIVersion : string; Kind : string }.
Record ObjectMeta : Type := { Meta_Name : string }.

Section Payload.
(** [resource.Quantity] *)
Context {Quantity : Type}.

(** The fields of [everestv1alpha.DatabaseCluster] that [prepareBody]
    sets; every other field of the Go struct keeps its zero value. *)
Record Storage : Type := { Size : Quantity }.
Record Resources : Type := { Res_CPU : Quantity; Res_Memory : Quantity }.
Record Engine : Type := {
  Engine_Type : EngineType;
  Engine_Replicas : Z;
  Engine_Version : string;
  Engine_Storage : Storage;
  Engine_Resources : Resources
}.
Record Expose : Type := { Expose_Type : ExposeType }.
(** [Replicas] of the proxy is a pointer to an [int32]. *)
Record Proxy : Type := {
  Proxy_Type : ProxyType;
  Proxy_Replicas : option Z;
  Proxy_Expose : Expose
}.
Record DatabaseClusterSpec : Type := { Spec_Engine : Engine; Spec_Proxy : Proxy }.
Record DatabaseCluster : Type := {
  Cluster_TypeMeta : TypeMeta;
  Cluster_ObjectMeta : ObjectMeta;
  Spec : DatabaseClusterSpec
}.

(** [payload.Spec.Proxy.Expose.Type = t] *)
Definition set_Expose_Type (t : ExposeType) (p : DatabaseCluster) : DatabaseCluster :=
  {| Cluster_TypeMeta := Cluster_TypeMeta p;
     Cluster_ObjectMeta := Cluster_ObjectMeta p;
     Spec := {| Spec_Engine := Spec_Engine (Spec p);
                Spec_Proxy := {| Proxy_Type := Proxy_Type (Spec_Proxy (Spec p));
                                 Proxy_Replicas := Proxy_Replicas (Spec_Proxy (Spec p));
                                 Proxy_Expose := {| Expose_Type := t |} |} |} |}.
End Payload.
Arguments Storage : clear implicits.
Arguments Resources : clear implicits.
Arguments Engine : clear implicits.
Arguments DatabaseClusterSpec : clear implicits.
Arguments DatabaseCluster : clear implicits.

Section Command.
Context {Quantity : Type}.
(** [client.DatabaseCluster], the wire shape of the control plane. *)
Context {Wire : Type}.

(** [resource.ParseQuantity] *)
Variable resource_ParseQuantity : string -> result Quantity.
(** The intermediate representation: the bytes [json.Marshal] returns. *)
Context {Bytes : Type}.
(** [json.Marshal] on the structured payload, [json.Unmarshal] into the
    wire type, and the conversion [string(bodyJSON)] for the log. *)
Variable json_Marshal : DatabaseCluster Quantity -> result Bytes.
Variable json_Unmarshal : Bytes -> result Wire.
Variable string_of_bytes : Bytes -> string.
(** [%q] of [fmt]. *)
Variable quoted : string -> string.

Inductive Event : Type :=
| Logged (lvl : level) (msg : string)
| CreateRequested (kubernetesID : string) (body : Wire).

(** The interface [everestClientConnector] as this package uses it. *)
Class everestClientConnector : Type := {
  CreateDBCluster : string -> Wire -> list Event -> option error
}.
Context {everestClient : everestClientConnector}.

Record MySQL : Type := NewMySQL { config : MySQLConfig }.

Definition convertPayload (payload : DatabaseCluster Quantity)
  : Cmd Event (result Wire) :=
  match json_Marshal payload with
  | Err err => mret (Err (Wrap err "cannot marshal payload to json"))
  | Ok bodyJSON =>
      emit (Logged DebugLevel (string_of_bytes bodyJSON)) ;;
      match json_Unmarshal bodyJSON with
      | Err err => mret (Err (Wrap err "cannot unmarshal payload back to json"))
      | Ok body => mret (Ok body)
      end
  end.

(** The version sent: an empty string means the operator uses the
    latest version. *)
Definition payloadVersion (c : MySQLConfig) : string :=
  if String.eqb (DB_Version c) "latest" then "" else DB_Version c.

(** The struct literal of [prepareBody]. *)
Definition payloadLiteral (c : MySQLConfig) (cpu memory disk : Quantity)
  : DatabaseCluster Quantity :=
  let replicas := int32 (Nodes c) in
  let version := payloadVersion c in
  {| Cluster_TypeMeta := {| APIVersion := "everest.percona.com/v1alpha1";
                            Kind := "DatabaseCluster" |};
     Cluster_ObjectMeta := {| Meta_Name := Name c |};
     Spec := {|
       Spec_Engine := {|
         Engine_Type := DatabaseEnginePXC;
         Engine_Replicas := replicas;
         Engine_Version := version;
         Engine_Storage := {| Size := disk |};
         Engine_Resources := {| Res_CPU := cpu; Res_Memory := memory |} |};
       Spec_Proxy := {|
         Proxy_Type := ProxyTypeHAProxy;
         Proxy_Replicas := Some replicas;
         Proxy_Expose := {| Expose_Type := ExposeTypeInternal |} |} |} |}.

Definition prepareBody (m : MySQL) : Cmd Event (result Wire) :=
  match resource_ParseQuantity (CPU (config m)) with
  | Err err => mret (Err (Wrap err "cannot parse cpu"))
  | Ok cpu =>
  match resource_ParseQuantity (Memory (config m)) with
  | Err err => mret (Err (Wrap err "cannot parse memory"))
  | Ok memory =>
  match resource_ParseQuantity (Disk (config m)) with
  | Err err => mret (Err (Wrap err "cannot parse disk storage"))
  | Ok disk =>
      let payload := payloadLiteral (config m) cpu memory disk in
      payload ← (if ExternalAccess (config m) then
                   emit (Logged DebugLevel "Enabling external access") ;;
                   mret (set_Expose_Type ExposeTypeExternal payload)
                 else mret payload) ;
      convertPayload payload
  end end end.

(** Run runs the MySQL command. *)
Definition Run (m : MySQL) : Cmd Event (option error) :=
  emit (Logged InfoLevel "Preparing cluster config") ;;
  r ← prepareBody m ;
  match r with
  | Err err => mret (Some err)
  | Ok body =>
      emit (Logged InfoLevel ("Creating " +:+ quoted (Name (config m))
                           +:+ " database cluster")) ;;
      err ← (emit (CreateRequested (KubernetesID (config m)) body) ;;
             observe (CreateDBCluster (KubernetesID (config m)) body)) ;
      match err with
      | Some e => mret (Some e)
      | None =>
          emit (Logged InfoLevel ("Database cluster " +:+ quoted (Name (config m))
                               +:+ " has been scheduled to Kubernetes")) ;;
          mret None
      end
  end.
(** The wire fields the properties read.  The wire type belongs to the
    control-plane client; a field that is a nil pointer there reads as
    its zero value. *)
Variable wire_Engine_Version : Wire -> string.
Variable wire_Engine_Replicas : Wire -> Z.
Variable wire_Proxy_Replicas : Wire -> Z.

(** What the JSON round trip of [convertPayload] is expected to keep: the
    version and both replica fields exist in both schemas. *)
Definition translation_keeps_fields : Prop :=
  forall payload bodyJSON body,
    json_Marshal payload = Ok bodyJSON ->
    json_Unmarshal bodyJSON = Ok body ->
    wire_Engine_Version body = Engine_Version (Spec_Engine (Spec payload)) /\
    wire_Engine_Replicas body = Engine_Replicas (Spec_Engine (Spec payload)) /\
    wire_Proxy_Replicas body = default 0%Z (Proxy_Replicas (Spec_Proxy (Spec payload))).

Definition is_log (e : Event) : bool :=
  match e with Logged _ _ => true | CreateRequested _ _ => false end.

Lemma convertPayload_inv payload t body t' :
  convertPayload payload t = (Ok body, t') ->
  exists bodyJSON,
    json_Marshal payload = Ok bodyJSON /\ json_Unmarshal bodyJSON = Ok body /\
    t' = t ++ [Logged DebugLevel (string_of_bytes bodyJSON)].
Proof.
  unfold convertPayload. destruct (json_Marshal payload) as [bodyJSON|e]; run_cmd.
  - destruct (json_Unmarshal bodyJSON) as [b|e] eqn:Hun; intros [= <- <-]; eauto.
  - intros [=].
Qed.

Lemma convertPayload_logs payload t :
  exists logs, snd (convertPayload payload t) = t ++ logs /\ forallb is_log logs = true.
Proof.
  unfold convertPayload. destruct (json_Marshal payload) as [bodyJSON|e]; run_cmd.
  - destruct (json_Unmarshal bodyJSON); cbn; by eexists [_].
  - exists []. by rewrite app_nil_r.
Qed.

(** Whenever [prepareBody] returns a body, it is the translation of the
    struct literal built from the three parsed quantities, with the
    exposure switched when external access is requested. *)
Lemma prepareBody_inv m t body t' :
  prepareBody m t = (Ok body, t') ->
  exists cpu memory disk bodyJSON,
    resource_ParseQuantity (CPU (config m)) = Ok cpu /\
    resource_ParseQuantity (Memory (config m)) = Ok memory /\
    resource_ParseQuantity (Disk (config m)) = Ok disk /\
    let literal := payloadLiteral (config m) cpu memory disk in
    let payload := if ExternalAccess (config m)
                   then set_Expose_Type ExposeTypeExternal literal else literal in
    json_Marshal payload = Ok bodyJSON /\ json_Unmarshal bodyJSON = Ok body.
Proof.
  unfold prepareBody.
  destruct (resource_ParseQuantity (CPU (config m))) as [cpu|]; [|by intros [=]].
  destruct (resource_ParseQuantity (Memory (config m))) as [memory|]; [|by intros [=]].
  destruct (resource_ParseQuantity (Disk (config m))) as [disk|]; [|by intros [=]].
  intros H. exists cpu, memory, disk.
  destruct (ExternalAccess (config m)); run_cmd;
    apply convertPayload_inv in H as (bodyJSON & ? & ? & _); eauto 10.
Qed.

Lemma prepareBody_logs m t :
  exists logs, snd (prepareBody m t) = t ++ logs /\ forallb is_log logs = true.
Proof.
  unfold prepareBody.
  destruct (resource_ParseQuantity (CPU (config m))) as [cpu|];
    [|exists []; by rewrite app_nil_r].
  destruct (resource_ParseQuantity (Memory (config m))) as [memory|];
    [|exists []; by rewrite app_nil_r].
  destruct (resource_ParseQuantity (Disk (config m))) as [disk|];
    [|exists []; by rewrite app_nil_r].
  destruct (ExternalAccess (config m)); run_cmd.
  - destruct (convertPayload_logs
                (set_Expose_Type ExposeTypeExternal
                   (payloadLiteral (config m) cpu memory disk))
                (t ++ [Logged DebugLevel "Enabling external access"]))
      as (logs & -> & Hlogs).
    eexists (_ :: logs). by rewrite <- app_assoc.
  - apply convertPayload_logs.
Qed.

(** Every create request that [Run] issues carries a body returned by
    [prepareBody], and the Kubernetes identifier of the configuration. *)
Lemma Run_sends_prepared m t id body :
  CreateRequested id body ∈ added_by (Run m) t ->
  id = KubernetesID (config m) /\
  exists t1 t2, prepareBody m t1 = (Ok body, t2).
Proof.
  unfold added_by, Run. run_cmd.
  destruct (prepareBody_logs m (t ++ [Logged InfoLevel "Preparing cluster config"]))
    as (logs & Htr & Hlogs).
  destruct (prepareBody m _) as [r t1] eqn:Hprep. cbn in Htr. subst t1.
  assert (Hnolog : CreateRequested id body ∉ logs).
  { intros Hin. rewrite forallb_forall in Hlogs.
    apply list_elem_of_In, Hlogs in Hin. done. }
  destruct r as [body'|err]; cbn.
  - destruct (CreateDBCluster _ _ _); cbn;
      rewrite <- !app_assoc, drop_app_length; cbn;
      rewrite elem_of_cons, elem_of_app, !elem_of_cons, ?elem_of_nil;
      intros [?|[?|[?|[Heq|?]]]]; try done;
      try (destruct H as [?|?]; done);
      injection Heq as -> ->; eauto.
  - rewrite <- !app_assoc, drop_app_length. cbn.
    rewrite elem_of_cons. intros [?|?]; done.
Qed.
(** C1. When the CPU, memory or disk string does not parse, [Run] returns
    the parser's error wrapped under the label of the first field that
    failed, and the only event it adds to the trace is its first log line:
    no create request reaches the control-plane client. *)
Theorem Run_parse_failure (m : MySQL) (t : list Event) :
  is_Err (resource_ParseQuantity (CPU (config m))) \/
  is_Err (resource_ParseQuantity (Memory (config m))) \/
  is_Err (resource_ParseQuantity (Disk (config m))) ->
  exists cause label,
    Run m t = (Some (Wrap cause label),
               t ++ [Logged InfoLevel "Preparing cluster config"]) /\
    ((label = "cannot parse cpu" /\
      resource_ParseQuantity (CPU (config m)) = Err cause) \/
     (label = "cannot parse memory" /\
      resource_ParseQuantity (Memory (config m)) = Err cause) \/
     (label = "cannot parse disk storage" /\
      resource_ParseQuantity (Disk (config m)) = Err cause)) /\
    (forall id body, CreateRequested id body ∉ added_by (Run m) t).
Proof.
  intros Hfail.
  assert (Hrun : exists cause label,
    Run m t = (Some (Wrap cause label),
               t ++ [Logged InfoLevel "Preparing cluster config"]) /\
    ((label = "cannot parse cpu" /\
      resource_ParseQuantity (CPU (config m)) = Err cause) \/
     (label = "cannot parse memory" /\
      resource_ParseQuantity (Memory (config m)) = Err cause) \/
     (label = "cannot parse disk storage" /\
      resource_ParseQuantity (Disk (config m)) = Err cause))).
  { unfold Run, prepareBody. run_cmd.
    destruct (resource_ParseQuantity (CPU (config m))) as [cpu|e1]; cbn;
      [|by eauto 10].
    destruct (resource_ParseQuantity (Memory (config m))) as [memory|e2]; cbn;
      [|by eauto 10].
    destruct (resource_ParseQuantity (Disk (config m))) as [disk|e3]; cbn;
      [|by eauto 10].
    cbn in Hfail. tauto. }
  destruct Hrun as (cause & label & Hrun & Hwhich).
  exists cause, label. repeat split; [done..|].
  intros id body. unfold added_by. rewrite Hrun. cbn.
  rewrite drop_app_length, elem_of_cons, elem_of_nil. by intros [?|?].
Qed.

(** C3. The version field of the wire payload that [prepareBody] returns is
    empty when the configured version is the literal ["latest"], and is the
    configured version itself otherwise. *)
Theorem prepareBody_version (m : MySQL) (t t' : list Event) (body : Wire) :
  translation_keeps_fields ->
  prepareBody m t = (Ok body, t') ->
  (DB_Version (config m) = "latest" -> wire_Engine_Version body = "") /\
  (DB_Version (config m) <> "latest" ->
   wire_Engine_Version body = DB_Version (config m)).
Proof.
  intros Hkeep Hprep.
  apply prepareBody_inv in Hprep
    as (cpu & memory & disk & bodyJSON & _ & _ & _ & Hmar & Hun).
  destruct (Hkeep _ _ _ Hmar Hun) as (Hversion & _).
  rewrite Hversion.
  assert (Hlit : forall p : DatabaseCluster Quantity,
    Engine_Version (Spec_Engine (Spec
      (if ExternalAccess (config m)
       then set_Expose_Type ExposeTypeExternal p else p)))
    = Engine_Version (Spec_Engine (Spec p))).
  { intros p. by destruct (ExternalAccess (config m)). }
  rewrite Hlit. cbn. unfold payloadVersion.
  split; intros Hv.
  - by rewrite Hv.
  - apply String.eqb_neq in Hv. by rewrite Hv.
Qed.

(** C4, as the code has it. On every body that [Run] sends, the engine's
    and the proxy's replica fields are equal: both are the configured node
    count converted to [int32].  The count is at least 1 whenever the
    configured one is at least 1 and fits an [int32]. *)
Theorem Run_replicas_equal (m : MySQL) (t : list Event) (id : string) (body : Wire) :
  translation_keeps_fields ->
  CreateRequested id body ∈ added_by (Run m) t ->
  wire_Engine_Replicas body = int32 (Nodes (config m)) /\
  wire_Proxy_Replicas body = wire_Engine_Replicas body /\
  (1 <= Nodes (config m) < 2 ^ 31 ->
   wire_Engine_Replicas body = Nodes (config m) /\ 1 <= wire_Engine_Replicas body)%Z.
Proof.
  intros Hkeep Hsent.
  apply Run_sends_prepared in Hsent as (_ & t1 & t2 & Hprep).
  apply prepareBody_inv in Hprep
    as (cpu & memory & disk & bodyJSON & _ & _ & _ & Hmar & Hun).
  destruct (Hkeep _ _ _ Hmar Hun) as (_ & Hengine & Hproxy).
  rewrite Hproxy, Hengine.
  assert (Hlit : forall p : DatabaseCluster Quantity,
    let p' := if ExternalAccess (config m)
              then set_Expose_Type ExposeTypeExternal p else p in
    Engine_Replicas (Spec_Engine (Spec p')) = Engine_Replicas (Spec_Engine (Spec p)) /\
    Proxy_Replicas (Spec_Proxy (Spec p')) = Proxy_Replicas (Spec_Proxy (Spec p))).
  { intros p. by destruct (ExternalAccess (config m)). }
  destruct (Hlit (payloadLiteral (config m) cpu memory disk)) as [-> ->].
  cbn. split; [done|]. split; [done|]. intros Hrange.
  assert (int32 (Nodes (config m)) = Nodes (config m)) as ->; [|lia].
  unfold int32. rewrite Z.mod_small; lia.
Qed.
(** ** Further behaviour of [Run] and [prepareBody] *)

(** The payload [prepareBody] hands to [convertPayload]. *)
Definition structuredPayload (c : MySQLConfig) (cpu memory disk : Quantity)
  : DatabaseCluster Quantity :=
  if ExternalAccess c
  then set_Expose_Type ExposeTypeExternal (payloadLiteral c cpu memory disk)
  else payloadLiteral c cpu memory disk.

Definition externalLog (c : MySQLConfig) : list Event :=
  if ExternalAccess c then [Logged DebugLevel "Enabling external access"] else [].

Definition preparingLog : Event := Logged InfoLevel "Preparing cluster config".

Definition creatingLog (m : MySQL) : Event :=
  Logged InfoLevel ("Creating " +:+ quoted (Name (config m)) +:+ " database cluster").

Definition scheduledLog (m : MySQL) : Event :=
  Logged InfoLevel ("Database cluster " +:+ quoted (Name (config m))
                      +:+ " has been scheduled to Kubernetes").

Definition is_create (e : Event) : bool :=
  match e with CreateRequested _ _ => true | Logged _ _ => false end.

Lemma prepareBody_parsed m t cpu memory disk :
  resource_ParseQuantity (CPU (config m)) = Ok cpu ->
  resource_ParseQuantity (Memory (config m)) = Ok memory ->
  resource_ParseQuantity (Disk (config m)) = Ok disk ->
  prepareBody m t
  = convertPayload (structuredPayload (config m) cpu memory disk)
      (t ++ externalLog (config m)).
Proof.
  intros Hcpu Hmemory Hdisk. unfold prepareBody, structuredPayload, externalLog.
  rewrite Hcpu, Hmemory, Hdisk.
  destruct (ExternalAccess (config m)); run_cmd; [done|by rewrite app_nil_r].
Qed.

(** X6. When the three quantities parse but the translation fails, [Run]
    returns the encoder's error wrapped as [cannot marshal payload to json],
    or the decoder's error wrapped as [cannot unmarshal payload back to
    json]; in both cases only log lines are added to the trace: no create
    request is issued. *)
Theorem Run_translation_failure (m : MySQL) (t : list Event)
    (cpu memory disk : Quantity) :
  resource_ParseQuantity (CPU (config m)) = Ok cpu ->
  resource_ParseQuantity (Memory (config m)) = Ok memory ->
  resource_ParseQuantity (Disk (config m)) = Ok disk ->
  let payload := structuredPayload (config m) cpu memory disk in
  (forall err,
     json_Marshal payload = Err err ->
     Run m t = (Some (Wrap err "cannot marshal payload to json"),
                t ++ preparingLog :: externalLog (config m))) /\
  (forall bodyJSON err,
     json_Marshal payload = Ok bodyJSON ->
     json_Unmarshal bodyJSON = Err err ->
     Run m t = (Some (Wrap err "cannot unmarshal payload back to json"),
                t ++ preparingLog :: externalLog (config m)
                  ++ [Logged DebugLevel (string_of_bytes bodyJSON)])).
Proof.
  intros Hcpu Hmemory Hdisk payload. split.
  - intros err Hmar. unfold Run. run_cmd.
    rewrite (prepareBody_parsed m _ cpu memory disk) by done.
    unfold convertPayload. fold payload. rewrite Hmar. run_cmd.
    by rewrite <- app_assoc.
  - intros bodyJSON err Hmar Hun. unfold Run. run_cmd.
    rewrite (prepareBody_parsed m _ cpu memory disk) by done.
    unfold convertPayload. fold payload. rewrite Hmar. run_cmd. rewrite Hun. cbn.
    by rewrite <- !app_assoc.
Qed.

(** The events of a run whose payload was translated, up to the request. *)
Definition acceptedEvents (m : MySQL) (bodyJSON : Bytes) (body : Wire) : list Event :=
  preparingLog :: externalLog (config m)
    ++ [Logged DebugLevel (string_of_bytes bodyJSON); creatingLog m;
        CreateRequested (KubernetesID (config m)) body].

(** X7. When the three quantities parse and the translation succeeds,
    [Run] issues one create request, for the configured Kubernetes context
    and the translated body, and returns the answer of the control plane
    unchanged; the closing line is logged only when the answer is no
    error. *)
Theorem Run_submits (m : MySQL) (t : list Event) (cpu memory disk : Quantity)
    (bodyJSON : Bytes) (body : Wire) :
  resource_ParseQuantity (CPU (config m)) = Ok cpu ->
  resource_ParseQuantity (Memory (config m)) = Ok memory ->
  resource_ParseQuantity (Disk (config m)) = Ok disk ->
  json_Marshal (structuredPayload (config m) cpu memory disk) = Ok bodyJSON ->
  json_Unmarshal bodyJSON = Ok body ->
  let answer := CreateDBCluster (KubernetesID (config m)) body
                  (t ++ acceptedEvents m bodyJSON body) in
  Run m t = (answer,
             t ++ acceptedEvents m bodyJSON body
               ++ match answer with None => [scheduledLog m] | Some _ => [] end).
Proof.
  intros Hcpu Hmemory Hdisk Hmar Hun answer. unfold Run. run_cmd.
  rewrite (prepareBody_parsed m _ cpu memory disk) by done.
  unfold convertPayload. rewrite Hmar. run_cmd. rewrite Hun. cbn.
  assert (Htrace :
    (((t ++ [Logged InfoLevel "Preparing cluster config"]) ++ externalLog (config m))
       ++ [Logged DebugLevel (string_of_bytes bodyJSON)])
      ++ [Logged InfoLevel ("Creating " +:+ quoted (Name (config m))
                              +:+ " database cluster")]
    = t ++ preparingLog :: externalLog (config m)
        ++ [Logged DebugLevel (string_of_bytes bodyJSON); creatingLog m]).
  { by rewrite <- !app_assoc. }
  rewrite Htrace.
  assert (Hcall :
    (t ++ preparingLog :: externalLog (config m)
       ++ [Logged DebugLevel (string_of_bytes bodyJSON); creatingLog m])
      ++ [CreateRequested (KubernetesID (config m)) body]
    = t ++ acceptedEvents m bodyJSON body).
  { unfold acceptedEvents. rewrite <- !app_assoc. cbn. by rewrite <- !app_assoc. }
  rewrite Hcall. fold answer.
  destruct answer; cbn; [by rewrite app_nil_r|by rewrite <- app_assoc].
Qed.

Definition creates (l : list Event) : nat :=
  length (filter (fun e => is_create e = true) l).

Lemma creates_app (l1 l2 : list Event) : creates (l1 ++ l2) = creates l1 + creates l2.
Proof. unfold creates. by rewrite filter_app, length_app. Qed.

Lemma creates_singleton (e : Event) : creates [e] = if is_create e then 1 else 0.
Proof. by destruct e. Qed.

Lemma creates_logs (logs : list Event) : forallb is_log logs = true -> creates logs = 0.
Proof.
  induction logs as [|e logs IH]; [done|].
  change (e :: logs) with ([e] ++ logs). rewrite creates_app, creates_singleton.
  destruct e; cbn; [|done]. intros Hlogs. by rewrite IH.
Qed.

(** X8. Whatever the configuration and the collaborators do, one [Run]
    issues at most one create request, and only for the configured
    Kubernetes context. *)
Theorem Run_creates_at_most_once (m : MySQL) (t : list Event) :
  creates (added_by (Run m) t) <= 1 /\
  forall id body,
    CreateRequested id body ∈ added_by (Run m) t -> id = KubernetesID (config m).
Proof.
  split; [|intros id body Hin; by apply Run_sends_prepared in Hin as [-> _]].
  unfold added_by, Run. run_cmd.
  destruct (prepareBody_logs m (t ++ [Logged InfoLevel "Preparing cluster config"]))
    as (logs & Htr & Hlogs).
  destruct (prepareBody m _) as [r t1] eqn:Hprep. cbn [snd] in Htr. subst t1.
  apply creates_logs in Hlogs.
  destruct r as [body|err]; cbn [fst snd].
  - destruct (CreateDBCluster _ _ _); cbn [fst snd];
      rewrite <- !app_assoc, drop_app_length;
      rewrite !creates_app, !creates_singleton, Hlogs; cbn; lia.
  - rewrite <- !app_assoc, drop_app_length.
    rewrite !creates_app, !creates_singleton, Hlogs. cbn. lia.
Qed.

(** X9. Every body [prepareBody] returns is the translation of a payload
    with the configured name, the fixed API version and kind, the PXC
    engine with the parsed disk, CPU and memory quantities, and the HAProxy
    proxy; the proxy is exposed externally exactly when external access is
    configured, internally otherwise.  On the way only debug lines are
    logged: the notice of external access, when configured, and the
    intermediate JSON. *)
Theorem prepareBody_payload (m : MySQL) (t t' : list Event) (body : Wire) :
  prepareBody m t = (Ok body, t') ->
  exists cpu memory disk bodyJSON payload,
    resource_ParseQuantity (CPU (config m)) = Ok cpu /\
    resource_ParseQuantity (Memory (config m)) = Ok memory /\
    resource_ParseQuantity (Disk (config m)) = Ok disk /\
    json_Marshal payload = Ok bodyJSON /\
    json_Unmarshal bodyJSON = Ok body /\
    t' = t ++ externalLog (config m) ++ [Logged DebugLevel (string_of_bytes bodyJSON)] /\
    Cluster_TypeMeta payload
      = {| APIVersion := "everest.percona.com/v1alpha1"; Kind := "DatabaseCluster" |} /\
    Meta_Name (Cluster_ObjectMeta payload) = Name (config m) /\
    Engine_Type (Spec_Engine (Spec payload)) = DatabaseEnginePXC /\
    Size (Engine_Storage (Spec_Engine (Spec payload))) = disk /\
    Engine_Resources (Spec_Engine (Spec payload))
      = {| Res_CPU := cpu; Res_Memory := memory |} /\
    Proxy_Type (Spec_Proxy (Spec payload)) = ProxyTypeHAProxy /\
    Expose_Type (Proxy_Expose (Spec_Proxy (Spec payload)))
      = (if ExternalAccess (config m) then ExposeTypeExternal else ExposeTypeInternal).
Proof.
  intros Hprep.
  destruct (prepareBody_inv _ _ _ _ Hprep)
    as (cpu & memory & disk & bodyJSON & Hcpu & Hmemory & Hdisk & Hmar & Hun).
  rewrite (prepareBody_parsed m t cpu memory disk) in Hprep by done.
  apply convertPayload_inv in Hprep as (bodyJSON' & Hmar' & _ & ->).
  fold (structuredPayload (config m) cpu memory disk) in Hmar.
  assert (bodyJSON' = bodyJSON) as -> by congruence.
  exists cpu, memory, disk, bodyJSON, (structuredPayload (config m) cpu memory disk).
  repeat (split; [done|]).
  split; [by rewrite <- app_assoc|].
  unfold structuredPayload. destruct (ExternalAccess (config m)); by cbn.
Qed.

(** X10. The quantities are parsed in the order CPU, memory, disk, and the
    first failure decides the error: its message is the field's label, a
    colon, and the parser's message. *)
Theorem Run_parse_error_order (m : MySQL) (t : list Event) :
  (forall err,
     resource_ParseQuantity (CPU (config m)) = Err err ->
     fst (Run m t) = Some (Wrap err "cannot parse cpu") /\
     Error (Wrap err "cannot parse cpu") = "cannot parse cpu: " +:+ Error err) /\
  (forall cpu err,
     resource_ParseQuantity (CPU (config m)) = Ok cpu ->
     resource_ParseQuantity (Memory (config m)) = Err err ->
     fst (Run m t) = Some (Wrap err "cannot parse memory") /\
     Error (Wrap err "cannot parse memory") = "cannot parse memory: " +:+ Error err) /\
  (forall cpu memory err,
     resource_ParseQuantity (CPU (config m)) = Ok cpu ->
     resource_ParseQuantity (Memory (config m)) = Ok memory ->
     resource_ParseQuantity (Disk (config m)) = Err err ->
     fst (Run m t) = Some (Wrap err "cannot parse disk storage") /\
     Error (Wrap err "cannot parse disk storage")
       = "cannot parse disk storage: " +:+ Error err).
Proof.
  unfold Run, prepareBody. run_cmd. repeat split.
  - by rewrite H.
  - by rewrite H, H0.
  - by rewrite H, H0, H1.
Qed.

(** [c] with another node count. *)
Definition withNodes (nodes : Z) (c : MySQLConfig) : MySQLConfig :=
  {| Name := Name c; KubernetesID := KubernetesID c;
     Everest_Endpoint := Everest_Endpoint c; DB_Version := DB_Version c;
     Nodes := nodes; CPU := CPU c; Memory := Memory c; Disk := Disk c;
     ExternalAccess := ExternalAccess c |}.

(** X11. The node count reaches the payload through [int32] only: the
    replica count lies in the range of an [int32], and a node count that
    differs by a multiple of 2^32 gives the same run, request for request. *)
Theorem Run_nodes_wrap (c : MySQLConfig) (k : Z) (t : list Event)
    (cpu memory disk : Quantity) :
  (- 2 ^ 31 <= Engine_Replicas (Spec_Engine (Spec (payloadLiteral c cpu memory disk)))
   < 2 ^ 31)%Z /\
  Run (NewMySQL (withNodes (Nodes c + k * 2 ^ 32) c)) t = Run (NewMySQL c) t.
Proof.
  split.
  - cbn. unfold int32. pose proof (Z.mod_pos_bound (Nodes c + 2 ^ 31) (2 ^ 32)). lia.
  - assert (Hliteral : forall cpu' memory' disk',
      payloadLiteral (withNodes (Nodes c + k * 2 ^ 32) c) cpu' memory' disk'
      = payloadLiteral c cpu' memory' disk').
    { intros cpu' memory' disk'. unfold payloadLiteral, payloadVersion. cbn.
      assert (int32 (Nodes c + k * 2 ^ 32) = int32 (Nodes c)) as ->; [|done].
      unfold int32.
      replace (Nodes c + k * 2 ^ 32 + 2 ^ 31)%Z
        with (Nodes c + 2 ^ 31 + k * 2 ^ 32)%Z by lia.
      by rewrite Z.mod_add. }
    unfold Run, prepareBody. cbn.
    destruct (resource_ParseQuantity (CPU c)); [|done].
    destruct (resource_ParseQuantity (Memory c)); [|done].
    destruct (resource_ParseQuantity (Disk c)); [|done].
    by rewrite Hliteral.
Qed.

(** X12. [prepareBody] talks to no one: whether it succeeds or fails, it
    adds at most two events to the trace, all of them debug lines. *)
Theorem prepareBody_only_logs (m : MySQL) (t : list Event) :
  exists logs,
    snd (prepareBody m t) = t ++ logs /\
    length logs <= 2 /\
    Forall (fun e => exists msg, e = Logged DebugLevel msg) logs.
Proof.
  unfold prepareBody.
  destruct (resource_ParseQuantity (CPU (config m))) as [cpu|];
    [|exists []; rewrite app_nil_r; repeat split; [cbn; lia|constructor]].
  destruct (resource_ParseQuantity (Memory (config m))) as [memory|];
    [|exists []; rewrite app_nil_r; repeat split; [cbn; lia|constructor]].
  destruct (resource_ParseQuantity (Disk (config m))) as [disk|];
    [|exists []; rewrite app_nil_r; repeat split; [cbn; lia|constructor]].
  assert (Hconvert : forall payload t0, exists logs,
    snd (convertPayload payload t0) = t0 ++ logs /\ length logs <= 1 /\
    Forall (fun e => exists msg, e = Logged DebugLevel msg) logs).
  { intros payload t0. unfold convertPayload.
    destruct (json_Marshal payload) as [bodyJSON|e]; run_cmd.
    - exists [Logged DebugLevel (string_of_bytes bodyJSON)].
      split; [by destruct (json_Unmarshal bodyJSON)|]. split; [cbn; lia|].
      repeat constructor. by eexists.
    - exists []. rewrite app_nil_r. repeat split; [cbn; lia|constructor]. }
  destruct (ExternalAccess (config m)); run_cmd.
  - destruct (Hconvert (set_Expose_Type ExposeTypeExternal
                          (payloadLiteral (config m) cpu memory disk))
                (t ++ [Logged DebugLevel "Enabling external access"]))
      as (logs & -> & Hlen & Hall).
    exists (Logged DebugLevel "Enabling external access" :: logs).
    split; [by rewrite <- app_assoc|]. split; [cbn; lia|].
    constructor; [by eexists|done].
  - destruct (Hconvert (payloadLiteral (config m) cpu memory disk) t)
      as (logs & -> & Hlen & Hall).
    exists logs. split; [done|]. split; [lia|done].
Qed.

End Command.

(** ** Concrete collaborators

    Stand-ins for the libraries the command is linked against, used to run
    the command on concrete configurations. *)

Record SampleQuantity : Type := { amount : string; suffix : string }.

Definition is_digit (c : Ascii.ascii) : bool :=
  let n := Ascii.nat_of_ascii c in (48 <=? n)%nat && (n <=? 57)%nat.

Fixpoint digits_prefix (s : string) : string * string :=
  match s with
  | String c rest =>
      if is_digit c
      then let '(ds, tl) := digits_prefix rest in (String c ds, tl)
      else (EmptyString, s)
  | EmptyString => (EmptyString, EmptyString)
  end.

Definition suffixes : list string :=
  [""; "m"; "k"; "M"; "G"; "T"; "P"; "E"; "Ki"; "Mi"; "Gi"; "Ti"; "Pi"; "Ei"].

(** Modelled from the spec: the quantity grammar of the resource library,
    which is not part of the repository: an integer, or an integer followed
    by a binary or SI suffix. *)
Definition sample_ParseQuantity (s : string) : result SampleQuantity :=
  let '(ds, rest) := digits_prefix s in
  if String.eqb ds "" then
    Err (New "quantities must match the regular expression")
  else if existsb (String.eqb rest) suffixes then
    Ok {| amount := ds; suffix := rest |}
  else Err (New "unable to parse quantity's suffix").

Inductive json : Type :=
| JString (s : string)
| JNumber (n : Z)
| JObject (fields : list (string * json)).

Definition json_field (k : string) (j : json) : option json :=
  match j with
  | JObject fields => snd <$> List.find (fun kv => String.eqb (fst kv) k) fields
  | _ => None
  end.

Definition json_string (j : option json) : option string :=
  match j with Some (JString s) => Some s | _ => None end.

Definition json_number (j : option json) : option Z :=
  match j with Some (JNumber n) => Some n | _ => None end.

(** A field tagged [omitempty] is left out when it holds its zero value. *)
Definition omitempty (empty : bool) (k : string) (v : json) : list (string * json) :=
  if empty then [] else [(k, v)].

Definition quantity_text (q : SampleQuantity) : string := amount q +:+ suffix q.

(** Modelled from the spec: the canonical intermediate representation of
    the structured payload (the operator's schema is not part of the
    repository): one object per struct, scalar fields left out when empty,
    the proxy's replica pointer written whenever it is set. *)
Definition sample_Marshal (p : DatabaseCluster SampleQuantity) : result json :=
  let engine := Spec_Engine (Spec p) in
  let proxy := Spec_Proxy (Spec p) in
  Ok (JObject [
    ("apiVersion", JString (APIVersion (Cluster_TypeMeta p)));
    ("kind", JString (Kind (Cluster_TypeMeta p)));
    ("metadata", JObject [("name", JString (Meta_Name (Cluster_ObjectMeta p)))]);
    ("spec", JObject [
       ("engine", JObject (
          [("type", JString match Engine_Type engine with DatabaseEnginePXC => "pxc" end)]
          ++ omitempty (Engine_Replicas engine =? 0)%Z "replicas"
               (JNumber (Engine_Replicas engine))
          ++ omitempty (String.eqb (Engine_Version engine) "") "version"
               (JString (Engine_Version engine))
          ++ [("storage", JObject [
                 ("size", JString (quantity_text (Size (Engine_Storage engine))))]);
              ("resources", JObject [
                 ("cpu", JString (quantity_text (Res_CPU (Engine_Resources engine))));
                 ("memory", JString (quantity_text (Res_Memory (Engine_Resources engine))))])]));
       ("proxy", JObject (
          [("type", JString match Proxy_Type proxy with ProxyTypeHAProxy => "haproxy" end)]
          ++ match Proxy_Replicas proxy with
             | Some r => [("replicas", JNumber r)]
             | None => []
             end
          ++ [("expose", JObject [
                 ("type", JString match Expose_Type (Proxy_Expose proxy) with
                                  | ExposeTypeInternal => "internal"
                                  | ExposeTypeExternal => "external"
                                  end)])]))])]).

(** Modelled from the spec: the wire schema of the control-plane client
    (not part of the repository), every field optional; a field absent from
    the intermediate representation stays unset. *)
Record SampleWire : Type := {
  w_name : option string;
  w_engine_version : option string;
  w_engine_replicas : option Z;
  w_proxy_replicas : option Z;
  w_expose_type : option string
}.

Definition json_path (path : list string) (j : json) : option json :=
  foldl (fun (o : option json) k => o ≫= json_field k) (Some j) path.

Definition sample_Unmarshal (j : json) : result SampleWire :=
  match j with
  | JObject _ =>
      Ok {| w_name := json_string (json_path ["metadata"; "name"] j);
            w_engine_version := json_string (json_path ["spec"; "engine"; "version"] j);
            w_engine_replicas := json_number (json_path ["spec"; "engine"; "replicas"] j);
            w_proxy_replicas := json_number (json_path ["spec"; "proxy"; "replicas"] j);
            w_expose_type :=
              json_string (json_path ["spec"; "proxy"; "expose"; "type"] j) |}
  | _ => Err (New "json: cannot unmarshal into Go value of type client.DatabaseCluster")
  end.

Definition double_quote : string := String (Ascii.ascii_of_nat 34) EmptyString.

Fixpoint sample_string_of_bytes (j : json) : string :=
  match j with
  | JString s => double_quote +:+ s +:+ double_quote
  | JNumber n => pretty n
  | JObject fields =>
      "{" +:+
      (fix members (l : list (string * json)) : string :=
         match l with
         | [] => ""
         | [(k, v)] => double_quote +:+ k +:+ double_quote +:+ ":"
                         +:+ sample_string_of_bytes v
         | (k, v) :: rest => double_quote +:+ k +:+ double_quote +:+ ":"
                               +:+ sample_string_of_bytes v +:+ "," +:+ members rest
         end) fields
      +:+ "}"
  end.

#[local] Instance sample_everestClient : @everestClientConnector SampleWire :=
  {| CreateDBCluster := fun _ _ _ => None |}.

Definition sample_Run : MySQL -> Cmd (@Event SampleWire) (option error) :=
  Run sample_ParseQuantity sample_Marshal sample_Unmarshal sample_string_of_bytes
      (fun s => double_quote +:+ s +:+ double_quote).

Definition sample_prepareBody : MySQL -> Cmd (@Event SampleWire) (result SampleWire) :=
  prepareBody sample_ParseQuantity sample_Marshal sample_Unmarshal
              sample_string_of_bytes.

Definition sample_config : MySQLConfig :=
  {| Name := "db"; KubernetesID := "k8s"; Everest_Endpoint := "http://127.0.0.1:8081";
     DB_Version := "latest"; Nodes := 3; CPU := "2"; Memory := "4Gi"; Disk := "100Gi";
     ExternalAccess := false |}.

Definition sample_wire_Engine_Version (w : SampleWire) : string :=
  default "" (w_engine_version w).
Definition sample_wire_Engine_Replicas (w : SampleWire) : Z :=
  default 0%Z (w_engine_replicas w).
Definition sample_wire_Proxy_Replicas (w : SampleWire) : Z :=
  default 0%Z (w_proxy_replicas w).

Lemma sample_translation_keeps_fields :
  translation_keeps_fields sample_Marshal sample_Unmarshal
    sample_wire_Engine_Version sample_wire_Engine_Replicas sample_wire_Proxy_Replicas.
Proof.
  intros [tm om [[ety er ev est eres] [pty pr pex]]] bodyJSON body.
  unfold sample_Marshal. cbn. intros [= <-].
  unfold sample_Unmarshal, sample_wire_Engine_Version, sample_wire_Engine_Replicas,
    sample_wire_Proxy_Replicas.
  intros [= <-]. cbn.
  destruct (er =? 0)%Z eqn:Hr; destruct (String.eqb ev "") eqn:Hv;
    destruct pr as [r|]; cbn;
    try apply Z.eqb_eq in Hr; try apply String.eqb_eq in Hv; subst; done.
Defined.

Definition bad_cpu_config : MySQLConfig :=
  {| Name := "db"; KubernetesID := "k8s"; Everest_Endpoint := "http://127.0.0.1:8081";
     DB_Version := "8.0.31"; Nodes := 3; CPU := "two"; Memory := "4Gi"; Disk := "100Gi";
     ExternalAccess := false |}.

Definition zero_nodes_config : MySQLConfig :=
  {| Name := "db"; KubernetesID := "k8s"; Everest_Endpoint := "http://127.0.0.1:8081";
     DB_Version := "8.0.31"; Nodes := 0; CPU := "2"; Memory := "4Gi"; Disk := "100Gi";
     ExternalAccess := false |}.

(** The body sent for [sample_config]. *)
Definition sample_body : SampleWire :=
  {| w_name := Some "db"; w_engine_version := None; w_engine_replicas := Some 3%Z;
     w_proxy_replicas := Some 3%Z; w_expose_type := Some "internal" |}.

(** The body sent for [zero_nodes_config]. *)
Definition zero_nodes_body : SampleWire :=
  {| w_name := Some "db"; w_engine_version := Some "8.0.31"; w_engine_replicas := None;
     w_proxy_replicas := Some 0%Z; w_expose_type := Some "internal" |}.

(** C1 at a configuration whose CPU string is ["two"]. *)
Lemma Run_parse_failure_witness :
  is_Err (sample_ParseQuantity (CPU bad_cpu_config)) /\
  exists cause label,
    sample_Run (NewMySQL bad_cpu_config) []
      = (Some (Wrap cause label), [Logged InfoLevel "Preparing cluster config"]) /\
    label = "cannot parse cpu".
Proof.
  split; [exact I|].
  destruct (Run_parse_failure sample_ParseQuantity sample_Marshal sample_Unmarshal
              sample_string_of_bytes (fun s => double_quote +:+ s +:+ double_quote)
              (NewMySQL bad_cpu_config) [] (or_introl I))
    as (cause & label & Hrun & Hwhich & _).
  exists cause, label. split; [exact Hrun|].
  destruct Hwhich as [[Hl _]|[[_ Hp]|[_ Hp]]]; [exact Hl|discriminate Hp..].
Defined.

(** C3 at [sample_config], whose version is ["latest"]. *)
Lemma prepareBody_version_witness :
  fst (sample_prepareBody (NewMySQL sample_config) []) = Ok sample_body /\
  sample_wire_Engine_Version sample_body = "".
Proof.
  split; [reflexivity|].
  apply (prepareBody_version sample_ParseQuantity sample_Marshal sample_Unmarshal
           sample_string_of_bytes sample_wire_Engine_Version
           sample_wire_Engine_Replicas sample_wire_Proxy_Replicas
           (NewMySQL sample_config) []
           (snd (sample_prepareBody (NewMySQL sample_config) [])) sample_body
           sample_translation_keeps_fields eq_refl).
  reflexivity.
Defined.

(** The claim of C4 that every payload sent has a replica count of at least
    1 fails for a configuration with zero nodes: its payload is sent, with a
    replica count of 0 on the engine and on the proxy. *)
Lemma Run_sends_zero_replicas :
  sample_Run (NewMySQL zero_nodes_config) [] =
    (None,
     [Logged InfoLevel "Preparing cluster config";
      Logged DebugLevel (sample_string_of_bytes
        match sample_Marshal
                (payloadLiteral zero_nodes_config
                   {| amount := "2"; suffix := "" |}
                   {| amount := "4"; suffix := "Gi" |}
                   {| amount := "100"; suffix := "Gi" |})
        with Ok j => j | Err _ => JObject [] end);
      Logged InfoLevel ("Creating " +:+ double_quote +:+ "db" +:+ double_quote
                          +:+ " database cluster");
      CreateRequested "k8s" zero_nodes_body;
      Logged InfoLevel ("Database cluster " +:+ double_quote +:+ "db" +:+ double_quote
                          +:+ " has been scheduled to Kubernetes")]) /\
  sample_wire_Engine_Replicas zero_nodes_body = 0%Z /\
  sample_wire_Proxy_Replicas zero_nodes_body = 0%Z /\
  (sample_wire_Engine_Replicas zero_nodes_body < 1)%Z.
Proof. repeat split. Qed.

(** C4 at [sample_config]: three nodes. *)
Lemma Run_replicas_equal_witness :
  CreateRequested "k8s" sample_body
    ∈ added_by (sample_Run (NewMySQL sample_config)) [] /\
  sample_wire_Engine_Replicas sample_body = int32 3 /\
  sample_wire_Proxy_Replicas sample_body = sample_wire_Engine_Replicas sample_body.
Proof.
  assert (Hsent : CreateRequested "k8s" sample_body
                    ∈ added_by (sample_Run (NewMySQL sample_config)) []).
  { apply list_elem_of_In. do 3 right. left. reflexivity. }
  split; [exact Hsent|].
  destruct (Run_replicas_equal sample_ParseQuantity sample_Marshal sample_Unmarshal
              sample_string_of_bytes (fun s => double_quote +:+ s +:+ double_quote)
              sample_wire_Engine_Version
              sample_wire_Engine_Replicas sample_wire_Proxy_Replicas
              (NewMySQL sample_config) [] "k8s" sample_body
              sample_translation_keeps_fields Hsent) as (He & Hp & _).
  split; [exact He|exact Hp].
Defined.

(** ** Further concrete runs *)

(** An encoder that rejects every payload. *)
Definition failing_Marshal (p : DatabaseCluster SampleQuantity) : result json :=
  Err (New "json: unsupported value").

Definition external_config : MySQLConfig :=
  {| Name := "db"; KubernetesID := "k8s"; Everest_Endpoint := "http://127.0.0.1:8081";
     DB_Version := "8.0.31"; Nodes := 3; CPU := "2"; Memory := "4Gi"; Disk := "100Gi";
     ExternalAccess := true |}.

Definition sample_quoted (s : string) : string := double_quote +:+ s +:+ double_quote.

(** X6 at [external_config] with the failing encoder. *)
Lemma Run_translation_failure_witness :
  Run sample_ParseQuantity failing_Marshal sample_Unmarshal sample_string_of_bytes
      sample_quoted (NewMySQL external_config) []
  = (Some (Wrap (New "json: unsupported value") "cannot marshal payload to json"),
     [Logged InfoLevel "Preparing cluster config";
      Logged DebugLevel "Enabling external access"]).
Proof.
  exact (proj1 (Run_translation_failure sample_ParseQuantity failing_Marshal
                  sample_Unmarshal sample_string_of_bytes sample_quoted
                  (NewMySQL external_config) []
                  {| amount := "2"; suffix := "" |}
                  {| amount := "4"; suffix := "Gi" |}
                  {| amount := "100"; suffix := "Gi" |}
                  eq_refl eq_refl eq_refl)
               (New "json: unsupported value") eq_refl).
Defined.

(** The body sent for [external_config]. *)
Definition external_body : SampleWire :=
  {| w_name := Some "db"; w_engine_version := Some "8.0.31";
     w_engine_replicas := Some 3%Z; w_proxy_replicas := Some 3%Z;
     w_expose_type := Some "external" |}.

(** X7 at [external_config]. *)
Lemma Run_submits_witness :
  exists bodyJSON,
    sample_Marshal
      (structuredPayload external_config {| amount := "2"; suffix := "" |}
         {| amount := "4"; suffix := "Gi" |} {| amount := "100"; suffix := "Gi" |})
    = Ok bodyJSON /\
    sample_Run (NewMySQL external_config) []
    = (None,
       acceptedEvents sample_string_of_bytes sample_quoted (NewMySQL external_config)
         bodyJSON external_body
       ++ [scheduledLog sample_quoted (NewMySQL external_config)]).
Proof.
  eexists. split; [reflexivity|].
  refine (Run_submits sample_ParseQuantity sample_Marshal sample_Unmarshal
            sample_string_of_bytes sample_quoted (NewMySQL external_config) []
            {| amount := "2"; suffix := "" |}
            {| amount := "4"; suffix := "Gi" |}
            {| amount := "100"; suffix := "Gi" |} _ external_body
            eq_refl eq_refl eq_refl eq_refl _).
  vm_compute. reflexivity.
Defined.

(** X9 at [external_config]. *)
Lemma prepareBody_payload_witness :
  exists payload bodyJSON,
    sample_Marshal payload = Ok bodyJSON /\
    sample_Unmarshal bodyJSON = Ok external_body /\
    Expose_Type (Proxy_Expose (Spec_Proxy (Spec payload))) = ExposeTypeExternal /\
    Engine_Type (Spec_Engine (Spec payload)) = DatabaseEnginePXC.
Proof.
  assert (Hprep : sample_prepareBody (NewMySQL external_config) []
                  = (Ok external_body,
                     snd (sample_prepareBody (NewMySQL external_config) []))).
  { vm_compute. reflexivity. }
  destruct (prepareBody_payload sample_ParseQuantity sample_Marshal sample_Unmarshal
              sample_string_of_bytes (NewMySQL external_config) [] _ _ Hprep)
    as (cpu & memory & disk & bodyJSON & payload & _ & _ & _ & Hmar & Hun & _ & _ &
        _ & Hengine & _ & _ & _ & Hexpose).
  exists payload, bodyJSON. repeat split; [exact Hmar|exact Hun|exact Hexpose|exact Hengine].
Defined.

End Provision.

(** * Package list: the versions command *)

(** What a Go function does: it returns, or it panics. *)
Inductive outcome (A : Type) : Type :=
| Returns (r : result A)
| Panics (msg : string).
Arguments Returns {A} r.
Arguments Panics {A} msg.

(** [strings.Join] *)
Fixpoint strings_Join (elems : list string) (sep : string) : string :=
  match elems with
  | [] => ""
  | [s] => s
  | s :: rest => s +:+ sep +:+ strings_Join rest sep
  end.

Definition newline : string := String (Ascii.ascii_of_nat 10) EmptyString.

(** [sort.Reverse]: the order whose [Less i j] is [Less j i]. *)
Definition sort_Reverse {A} (less : A -> A -> bool) : A -> A -> bool :=
  fun a b => less b a.

(** What [sort.Sort] asks of a [Less] to promise a sorted result. *)
Record StrictWeakOrder {A} (less : A -> A -> bool) : Prop := {
  less_irreflexive : forall a, less a a = false;
  less_transitive : forall a b c, less a b = true -> less b c = true -> less a c = true;
  less_negatively_transitive :
    forall a b c, less a c = true -> less a b = true \/ less b c = true
}.

Module ListVersions.

Record EverestConfig : Type := { Endpoint : string }.

(** VersionsConfig stores configuration for the versions command. *)
Record VersionsConfig : Type := {
  KubernetesID : string;
  Everest : EverestConfig;
  (** Type represents a database engine type. *)
  Type_ : string
}.

Section Engines.
(** The value type of the engine-versions map of the control-plane client. *)
Context {Info : Type}.

(** The fields of [client.DatabaseEngine] that the command reads; each
    pointer is an [option]. *)
Record DatabaseEngineSpec : Type := { Spec_Type : string }.
Record AvailableVersions : Type := { Engine : option (gmap string Info) }.
Record DatabaseEngineStatus : Type := {
  Status_AvailableVersions : option AvailableVersions
}.
Record DatabaseEngine : Type := {
  Spec : option DatabaseEngineSpec;
  Status : option DatabaseEngineStatus
}.
Record DatabaseEngineList : Type := { Items : option (list DatabaseEngine) }.
End Engines.
Arguments AvailableVersions : clear implicits.
Arguments DatabaseEngineStatus : clear implicits.
Arguments DatabaseEngine : clear implicits.
Arguments DatabaseEngineList : clear implicits.

Inductive Event : Type :=
| ListRequested (kubernetesID : string).

Section Command.
Context {Info : Type}.
(** [goversion.Version] with [NewVersion], [Original] and [LessThan]. *)
Context {Version : Type}.
Variable goversion_NewVersion : string -> result Version.
Variable Original : Version -> string.
Variable LessThan : Version -> Version -> bool.
(** [sort.Sort] on a collection, given its [Less]: the collection after the
    call.  The sort works in place, by swaps. *)
Variable sort_Sort : (Version -> Version -> bool) -> list Version -> list Version.
(** The order in which [range] visits a Go map is unspecified: the keys of
    the engine map of the record at a given position of the list, and the
    buckets of a catalog, in the order the runtime happens to yield them. *)
Variable range_keys : nat -> gmap string Info -> list string.
Variable range_buckets :
  gmap string (list Version) -> list (string * list Version).

(** [goversion.Collection]: a slice of versions. *)
Definition Collection : Type := list Version.

(** The interface [everestClientConnector] as this package uses it. *)
Class everestClientConnector : Type := {
  ListDatabaseEngines : string -> list Event -> result (DatabaseEngineList Info)
}.
Context {everestClient : everestClientConnector}.

Record Versions : Type := NewVersions { config : VersionsConfig }.

(** [Collection.Less] under [sort.Reverse]. *)
Definition reverseLess : Version -> Version -> bool := sort_Reverse LessThan.

(** The body of the loop of [String] over the buckets [range] yields.
    [versions] shares its backing array with the bucket of the catalog, so
    sorting it reorders the bucket: the catalog is threaded through. *)
Fixpoint VersionsList_String_loop (buckets : list (string * list Version))
    (out : list string) (v : gmap string (list Version))
  : list string * gmap string (list Version) :=
  match buckets with
  | [] => (out, v)
  | (engine, versions) :: rest =>
      let out := out ++ ["-----"; engine; "-----"] in
      let versions := sort_Sort reverseLess versions in
      let v := <[engine := versions]> v in
      let out := out ++ (Original <$> versions) in
      VersionsList_String_loop rest out v
  end.

(** The elements [String] joins, and the catalog as the call leaves it. *)
Definition VersionsList_String_lines (v : gmap string (list Version))
  : list string * gmap string (list Version) :=
  VersionsList_String_loop (range_buckets v) [] v.

(** String returns string result of database engines list. *)
Definition VersionsList_String (v : gmap string (list Version))
  : string * gmap string (list Version) :=
  let '(out, v') := VersionsList_String_lines v in (strings_Join out newline, v').

Definition checkIfSkip (v : Versions) (db : DatabaseEngine Info) : bool :=
  match Spec db with
  | None => true
  | Some spec =>
      if negb (String.eqb (Type_ (config v)) "")
         && negb (String.eqb (Spec_Type spec) (Type_ (config v)))
      then true
      else
        match Status db with
        | None => true
        | Some status =>
            match Status_AvailableVersions status with
            | None => true
            | Some available =>
                match Engine available with
                | None => true
                | Some _ => false
                end
            end
        end
  end.

(** The inner loop of [parseVersions] over the keys of one engine map. *)
Fixpoint appendVersions (engineType : string) (keys : list string)
    (res : gmap string (list Version)) : result (gmap string (list Version)) :=
  match keys with
  | [] => Ok res
  | version :: rest =>
      match goversion_NewVersion version with
      | Err err => Err err
      | Ok ver =>
          appendVersions engineType rest
            (<[engineType := default [] (res !! engineType) ++ [ver]]> res)
      end
  end.

(** [res[engineType] = make(goversion.Collection, 0, n)] when the key is
    missing. *)
Definition ensureBucket (engineType : string) (res : gmap string (list Version))
  : gmap string (list Version) :=
  match res !! engineType with
  | Some _ => res
  | None => <[engineType := []]> res
  end.

(** [*db.Status.AvailableVersions.Engine]; [None] is a nil dereference. *)
Definition engineVersions (db : DatabaseEngine Info) : option (gmap string Info) :=
  status ← Status db ;
  available ← Status_AvailableVersions status ;
  Engine available.

(** The outer loop of [parseVersions], from the record at position [i]. *)
Fixpoint parseVersions_loop (v : Versions) (i : nat) (items : list (DatabaseEngine Info))
    (res : gmap string (list Version)) : outcome (gmap string (list Version)) :=
  match items with
  | [] => Returns (Ok res)
  | db :: rest =>
      if checkIfSkip v db then parseVersions_loop v (S i) rest res
      else
        match Spec db, engineVersions db with
        | Some spec, Some engine =>
            let engineType := Spec_Type spec in
            let res := ensureBucket engineType res in
            match appendVersions engineType (range_keys i engine) res with
            | Err err => Returns (Err err)
            | Ok res => parseVersions_loop v (S i) rest res
            end
        | _, _ => Panics "invalid memory address or nil pointer dereference"
        end
  end.

Definition parseVersions (v : Versions) (items : list (DatabaseEngine Info))
  : outcome (gmap string (list Version)) :=
  parseVersions_loop v 0 items ∅.

(** Run runs the versions list command. *)
Definition Run (v : Versions) : Cmd Event (outcome (gmap string (list Version))) :=
  r ← (emit (ListRequested (KubernetesID (config v))) ;;
       observe (ListDatabaseEngines (KubernetesID (config v)))) ;
  match r with
  | Err err => mret (Returns (Err err))
  | Ok dbEngines =>
      match Items dbEngines with
      | None => mret (Returns (Ok ∅))
      | Some items => mret (parseVersions v items)
      end
  end.

(** ** What the collaborators are expected to do *)

(** [sort.Sort] permutes the collection, and leaves it sorted when [Less]
    is a strict weak order: no element is less than an earlier one. *)
Definition sort_Sort_contract : Prop :=
  (forall less l, sort_Sort less l ≡ₚ l) /\
  (forall less l, StrictWeakOrder less ->
     StronglySorted (fun a b => less b a = false) (sort_Sort less l)).

(** [range] visits every entry of a map once, in some order. *)
Definition range_keys_enumerates : Prop :=
  forall i (m : gmap string Info), range_keys i m ≡ₚ (map_to_list m).*1.

Definition range_buckets_enumerates : Prop :=
  forall v : gmap string (list Version), range_buckets v ≡ₚ map_to_list v.

(** Descending order: no version is less than a later one. *)
Definition descending (versions : list Version) : Prop :=
  StronglySorted (fun a b => LessThan a b = false) versions.

(** The lines of one block of the output: three header lines, then one
    line per version. *)
Definition rendered_block (bucket : string * list Version) : list string :=
  ["-----"; bucket.1; "-----"] ++ (Original <$> bucket.2).

Definition sorted_bucket (bucket : string * list Version) : string * list Version :=
  (bucket.1, sort_Sort reverseLess bucket.2).

Lemma sort_Reverse_StrictWeakOrder {A} (less : A -> A -> bool) :
  StrictWeakOrder less -> StrictWeakOrder (sort_Reverse less).
Proof.
  intros [Hirr Htr Hneg]. unfold sort_Reverse. split.
  - done.
  - intros a b c Hab Hbc. by apply (Htr c b a).
  - intros a b c Hac. destruct (Hneg c b a Hac); auto.
Qed.

Lemma VersionsList_String_loop_lines buckets out v :
  (VersionsList_String_loop buckets out v).1
  = out ++ concat (rendered_block <$> (sorted_bucket <$> buckets)).
Proof.
  revert out v. induction buckets as [|[engine versions] rest IH]; intros out v; cbn.
  - by rewrite app_nil_r.
  - rewrite IH. unfold rendered_block at 2. cbn. by rewrite <- !app_assoc.
Qed.

Lemma VersionsList_String_loop_other buckets out v engine :
  engine ∉ buckets.*1 ->
  (VersionsList_String_loop buckets out v).2 !! engine = v !! engine.
Proof.
  revert out v. induction buckets as [|[e versions] rest IH]; intros out v Hnot; cbn.
  - done.
  - cbn in Hnot. apply not_elem_of_cons in Hnot as [Hne Hnot].
    rewrite IH by done. by rewrite lookup_insert_ne.
Qed.

Lemma VersionsList_String_loop_sorted buckets out v engine versions :
  NoDup buckets.*1 ->
  (engine, versions) ∈ buckets ->
  (VersionsList_String_loop buckets out v).2 !! engine
  = Some (sort_Sort reverseLess versions).
Proof.
  revert out v. induction buckets as [|[e vs] rest IH]; intros out v Hnd Hin; cbn.
  - by apply elem_of_nil in Hin.
  - cbn in Hnd. apply NoDup_cons in Hnd as [Hfresh Hnd].
    apply elem_of_cons in Hin as [[= -> ->]|Hin].
    + rewrite VersionsList_String_loop_other by done. by rewrite lookup_insert_eq.
    + by apply IH.
Qed.

(** The catalog after [String]: every bucket sorted in place. *)
Lemma VersionsList_String_catalog v engine :
  range_buckets_enumerates ->
  (VersionsList_String v).2 !! engine = sort_Sort reverseLess <$> (v !! engine).
Proof.
  intros Henum. unfold VersionsList_String, VersionsList_String_lines.
  destruct (VersionsList_String_loop (range_buckets v) [] v) as [out v'] eqn:Hloop.
  cbn. change v' with (out, v').2. rewrite <- Hloop.
  destruct (v !! engine) as [versions|] eqn:Hlook; cbn.
  - apply VersionsList_String_loop_sorted.
    + rewrite (Henum v). apply NoDup_fst_map_to_list.
    + rewrite (Henum v). by apply elem_of_map_to_list.
  - rewrite VersionsList_String_loop_other; [done|].
    rewrite (Henum v). intros Hin. apply list_elem_of_fmap in Hin as ([k x] & -> & Hin).
    apply elem_of_map_to_list in Hin. cbn in Hlook. congruence.
Qed.

Lemma VersionsList_String_text v :
  (VersionsList_String v).1
  = strings_Join (concat (rendered_block <$> (sorted_bucket <$> range_buckets v)))
      newline.
Proof.
  unfold VersionsList_String, VersionsList_String_lines.
  pose proof (VersionsList_String_loop_lines (range_buckets v) [] v) as Hlines.
  destruct (VersionsList_String_loop (range_buckets v) [] v) as [out v'].
  cbn in *. by rewrite Hlines.
Qed.

Lemma reverseLess_sorted_descending (versions : list Version) :
  StronglySorted (fun a b => reverseLess b a = false) versions -> descending versions.
Proof. done. Qed.

(** C7, as the code has it. The output of [String] is the join, with a
    newline and nothing after the last element, of one block per engine
    type of the catalog; a block is the three lines [-----], the engine
    type, [-----], followed by one line per version of the bucket, in
    descending order. *)
Theorem VersionsList_String_blocks (v : gmap string (list Version)) :
  range_buckets_enumerates ->
  sort_Sort_contract ->
  StrictWeakOrder LessThan ->
  exists blocks : list (string * list Version),
    (VersionsList_String v).1
      = strings_Join (concat (rendered_block <$> blocks)) newline /\
    blocks.*1 ≡ₚ (map_to_list v).*1 /\
    NoDup blocks.*1 /\
    Forall (fun block =>
              exists versions, v !! block.1 = Some versions /\
                block.2 ≡ₚ versions /\ descending block.2) blocks.
Proof.
  intros Henum [Hperm Hsorted] Hless.
  exists (sorted_bucket <$> range_buckets v).
  assert (Hfst : (sorted_bucket <$> range_buckets v).*1 = (range_buckets v).*1).
  { rewrite <- list_fmap_compose. by apply list_fmap_ext. }
  split; [apply VersionsList_String_text|].
  rewrite Hfst. split; [by rewrite (Henum v)|].
  split; [rewrite (Henum v); apply NoDup_fst_map_to_list|].
  apply Forall_fmap, Forall_forall. intros [engine versions] Hin. cbn.
  exists versions. rewrite (Henum v) in Hin. apply elem_of_map_to_list in Hin.
  split; [done|]. split; [apply Hperm|].
  apply reverseLess_sorted_descending, Hsorted.
  by apply sort_Reverse_StrictWeakOrder.
Qed.

(** C8, as the code has it. [String] sorts every bucket in place: after the
    call the catalog has the same engine types, and every bucket holds the
    versions it held before, rearranged in descending order. *)
Theorem VersionsList_String_sorts_in_place (v : gmap string (list Version)) :
  range_buckets_enumerates ->
  sort_Sort_contract ->
  StrictWeakOrder LessThan ->
  dom (VersionsList_String v).2 = dom v /\
  forall engine versions,
    v !! engine = Some versions ->
    exists versions',
      (VersionsList_String v).2 !! engine = Some versions' /\
      versions' = sort_Sort reverseLess versions /\
      versions' ≡ₚ versions /\
      descending versions'.
Proof.
  intros Henum [Hperm Hsorted] Hless. split.
  - apply set_eq. intros engine. rewrite !elem_of_dom.
    rewrite VersionsList_String_catalog by done. apply fmap_is_Some.
  - intros engine versions Hlook. eexists.
    rewrite VersionsList_String_catalog, Hlook by done. cbn.
    split; [done|]. split; [done|]. split; [apply Hperm|].
    apply reverseLess_sorted_descending, Hsorted.
    by apply sort_Reverse_StrictWeakOrder.
Qed.

(** ** The skip filter and the parsing loops *)

(** A record survives the filter exactly when every pointer the loop
    dereferences is set and its type passes the type filter. *)
Lemma checkIfSkip_false v db :
  checkIfSkip v db = false <->
  exists spec engine,
    Spec db = Some spec /\ engineVersions db = Some engine /\
    (Type_ (config v) = "" \/ Spec_Type spec = Type_ (config v)).
Proof.
  unfold checkIfSkip, engineVersions. split.
  - destruct (Spec db) as [spec|]; [|done].
    destruct (String.eqb (Type_ (config v)) "") eqn:Hfilter;
      destruct (String.eqb (Spec_Type spec) (Type_ (config v))) eqn:Htype; cbn;
      try done;
      (destruct (Status db) as [status|]; [|done]);
      (destruct (Status_AvailableVersions status) as [available|] eqn:Hav; [|done]);
      (destruct (Engine available) as [engine|] eqn:Hen; [|done]);
      intros _; exists spec, engine; cbn; rewrite Hav; cbn;
      apply String.eqb_eq in Hfilter || apply String.eqb_eq in Htype; auto.
  - intros (spec & engine & -> & Hengine & Hfilter).
    destruct (Status db) as [status|]; [|done]. cbn in Hengine.
    destruct (Status_AvailableVersions status) as [available|]; [|done].
    cbn in Hengine. rewrite Hengine.
    destruct Hfilter as [->| ->]; cbn; [done|].
    rewrite String.eqb_refl. cbn. by rewrite andb_false_r.
Qed.

Lemma appendVersions_Err_inv engineType keys res err :
  appendVersions engineType keys res = Err err ->
  exists version, version ∈ keys /\ goversion_NewVersion version = Err err.
Proof.
  revert res. induction keys as [|version rest IH]; intros res; cbn; [done|].
  destruct (goversion_NewVersion version) as [ver|e] eqn:Hparse.
  - intros (version' & Hin & Herr)%IH. exists version'. split; [by right|done].
  - intros [= ->]. exists version. split; [by left|done].
Qed.

Lemma appendVersions_unparsable engineType keys res version :
  version ∈ keys ->
  is_Err (goversion_NewVersion version) ->
  exists err, appendVersions engineType keys res = Err err.
Proof.
  revert res. induction keys as [|k rest IH]; intros res Hin Herr; cbn.
  - by apply elem_of_nil in Hin.
  - destruct (goversion_NewVersion k) as [ver|e] eqn:Hparse; [|by eauto].
    apply elem_of_cons in Hin as [->|Hin]; [by rewrite Hparse in Herr|].
    by apply IH.
Qed.

Lemma appendVersions_dom engineType keys res res' :
  is_Some (res !! engineType) ->
  appendVersions engineType keys res = Ok res' ->
  dom res' = dom res.
Proof.
  revert res. induction keys as [|version rest IH]; intros res Hbucket; cbn.
  - by intros [= ->].
  - destruct (goversion_NewVersion version) as [ver|e]; [|done].
    intros Hrest. apply IH in Hrest.
    + rewrite Hrest, dom_insert_L. apply elem_of_dom in Hbucket. set_solver.
    + rewrite lookup_insert_eq. eauto.
Qed.

Lemma ensureBucket_dom engineType (res : gmap string (list Version)) :
  dom (ensureBucket engineType res) = {[engineType]} ∪ dom res.
Proof.
  unfold ensureBucket. destruct (res !! engineType) eqn:Hlook.
  - apply (elem_of_dom_2 res) in Hlook. set_solver.
  - apply dom_insert_L.
Qed.

Lemma ensureBucket_is_Some engineType (res : gmap string (list Version)) :
  is_Some (ensureBucket engineType res !! engineType).
Proof.
  unfold ensureBucket. destruct (res !! engineType) eqn:Hlook; [by rewrite Hlook|].
  rewrite lookup_insert_eq. eauto.
Qed.

(** [parseVersions] dereferences no nil pointer. *)
Lemma parseVersions_loop_returns v i items res :
  exists r, parseVersions_loop v i items res = Returns r.
Proof.
  revert i res. induction items as [|db rest IH]; intros i res; cbn; [by eauto|].
  destruct (checkIfSkip v db) eqn:Hskip; [apply IH|].
  apply checkIfSkip_false in Hskip as (spec & engine & -> & -> & _).
  destruct (appendVersions _ _ _); [apply IH|by eauto].
Qed.

(** The engine types of the catalog are those the loop started with and
    those of the surviving records. *)
Lemma parseVersions_loop_dom v i items res res' :
  parseVersions_loop v i items res = Returns (Ok res') ->
  forall engineType,
    engineType ∈ dom res' <->
    engineType ∈ dom res \/
    exists db spec, db ∈ items /\ checkIfSkip v db = false /\
                    Spec db = Some spec /\ Spec_Type spec = engineType.
Proof.
  revert i res. induction items as [|db rest IH]; intros i res; cbn.
  - intros [= ->] engineType. split; [by left|].
    intros [?|(db & spec & Hin & _)]; [done|by apply elem_of_nil in Hin].
  - destruct (checkIfSkip v db) eqn:Hskip.
    + intros Hloop engineType. rewrite (IH _ _ Hloop). split.
      * intros [?|(db' & spec & Hin & ?)]; [by left|].
        right. exists db', spec. split; [by right|done].
      * intros [?|(db' & spec & Hin & Hskip' & ?)]; [by left|].
        apply elem_of_cons in Hin as [->|Hin]; [congruence|].
        right. by exists db', spec.
    + pose proof Hskip as (spec & engine & Hspec & Hengine & _)%checkIfSkip_false.
      rewrite Hspec, Hengine.
      destruct (appendVersions _ _ _) as [res1|err] eqn:Happend; [|done].
      intros Hloop engineType. rewrite (IH _ _ Hloop).
      apply appendVersions_dom in Happend; [|apply ensureBucket_is_Some].
      rewrite Happend, ensureBucket_dom, elem_of_union, elem_of_singleton. split.
      * intros [[->|?]|(db' & spec' & Hin & ?)]; [|by left|].
        -- right. exists db, spec. split; [by left|done].
        -- right. exists db', spec'. split; [by right|done].
      * intros [?|(db' & spec' & Hin & Hskip' & Hspec' & <-)]; [by auto|].
        apply elem_of_cons in Hin as [->|Hin].
        -- left. left. congruence.
        -- right. by exists db', spec'.
Qed.

Lemma parseVersions_loop_unparsable v i items res db engine version :
  range_keys_enumerates ->
  db ∈ items ->
  checkIfSkip v db = false ->
  engineVersions db = Some engine ->
  is_Some (engine !! version) ->
  is_Err (goversion_NewVersion version) ->
  exists err,
    parseVersions_loop v i items res = Returns (Err err) /\
    exists db' engine' version',
      db' ∈ items /\ checkIfSkip v db' = false /\
      engineVersions db' = Some engine' /\ is_Some (engine' !! version') /\
      goversion_NewVersion version' = Err err.
Proof.
  intros Henum Hin Hskip Hengine Hkey Hbad.
  assert (Hkeys : forall j (m : gmap string Info) k,
            k ∈ range_keys j m <-> is_Some (m !! k)).
  { intros j m k. rewrite (Henum j m), list_elem_of_fmap. split.
    - intros ([k' x] & -> & Hx%elem_of_map_to_list). by exists x.
    - intros [x Hx]. exists (k, x). split; [done|by apply elem_of_map_to_list]. }
  revert i res. induction items as [|d rest IH]; intros i res; cbn.
  - by apply elem_of_nil in Hin.
  - assert (Hlift : forall P : DatabaseEngine Info -> Prop,
              (exists d', d' ∈ rest /\ P d') -> exists d', d' ∈ d :: rest /\ P d').
    { intros P (d' & ? & ?). exists d'. split; [by right|done]. }
    destruct (checkIfSkip v d) eqn:Hskipd.
    + apply elem_of_cons in Hin as [->|Hin]; [congruence|].
      destruct (IH Hin (S i) res) as (err & -> & d' & e' & v' & ? & ?).
      exists err. split; [done|]. exists d', e', v'. split; [by right|done].
    + pose proof Hskipd as (spec & eng & Hspec & Heng & _)%checkIfSkip_false.
      rewrite Hspec, Heng.
      destruct (appendVersions (Spec_Type spec) (range_keys i eng)
                  (ensureBucket (Spec_Type spec) res)) as [res1|err] eqn:Happend.
      * apply elem_of_cons in Hin as [->|Hin].
        -- assert (eng = engine) as -> by congruence.
           destruct (appendVersions_unparsable (Spec_Type spec) (range_keys i engine)
                       (ensureBucket (Spec_Type spec) res) version) as [err Herr];
             [by apply Hkeys|done|congruence].
        -- destruct (IH Hin (S i) res1) as (err & -> & d' & e' & v' & ? & ?).
           exists err. split; [done|]. exists d', e', v'. split; [by right|done].
      * exists err. split; [done|].
        apply appendVersions_Err_inv in Happend as (version' & Hin' & Hparse).
        exists d, eng, version'. split; [by left|].
        repeat split; [done..|by apply Hkeys in Hin'|done].
Qed.

(** C9. When some surviving record of the list the control plane returns
    has a version string that the version parser rejects, [Run] returns an
    error and no catalog; the error is the parser's own, for a version
    string of a surviving record. *)
Theorem Run_unparsable_version (v : Versions) (t : list Event)
    (items : list (DatabaseEngine Info)) (db : DatabaseEngine Info)
    (engine : gmap string Info) (version : string) :
  range_keys_enumerates ->
  ListDatabaseEngines (KubernetesID (config v))
    (t ++ [ListRequested (KubernetesID (config v))]) = Ok {| Items := Some items |} ->
  db ∈ items ->
  checkIfSkip v db = false ->
  engineVersions db = Some engine ->
  is_Some (engine !! version) ->
  is_Err (goversion_NewVersion version) ->
  exists err,
    Run v t = (Returns (Err err), t ++ [ListRequested (KubernetesID (config v))]) /\
    exists db' engine' version',
      db' ∈ items /\ checkIfSkip v db' = false /\
      engineVersions db' = Some engine' /\ is_Some (engine' !! version') /\
      goversion_NewVersion version' = Err err.
Proof.
  intros Henum Hlist Hin Hskip Hengine Hkey Hbad.
  destruct (parseVersions_loop_unparsable v 0 items ∅ db engine version)
    as (err & Hparse & Hwhich); [done..|].
  exists err. split; [|done].
  unfold Run. run_cmd. rewrite Hlist. cbn. unfold parseVersions. by rewrite Hparse.
Qed.

(** C6. The loop of [parseVersions] passes over a record without a
    specification, of a type other than a requested one, or without status,
    available versions or engine versions: the catalog is left as it was
    and no error is raised.  Every engine type of the catalog is the type of
    a surviving record, so with the type filter ["pxc"] the catalog holds no
    bucket but ["pxc"], and exactly that bucket for a ["pxc"] record that
    survives next to a ["psmdb"] record. *)
Theorem parseVersions_skips (v : Versions) (db : DatabaseEngine Info) :
  ((Spec db = None \/
    (exists spec, Spec db = Some spec /\ Type_ (config v) <> "" /\
                  Spec_Type spec <> Type_ (config v)) \/
    Status db = None \/
    (exists status, Status db = Some status /\
                    Status_AvailableVersions status = None) \/
    (exists status available,
        Status db = Some status /\ Status_AvailableVersions status = Some available /\
        Engine available = None)) ->
   checkIfSkip v db = true /\
   forall i rest res,
     parseVersions_loop v i (db :: rest) res = parseVersions_loop v (S i) rest res) /\
  (forall items res engineType,
     parseVersions v items = Returns (Ok res) ->
     engineType ∈ dom res ->
     exists db' spec, db' ∈ items /\ checkIfSkip v db' = false /\
                      Spec db' = Some spec /\ Spec_Type spec = engineType) /\
  (forall items res,
     Type_ (config v) = "pxc" ->
     parseVersions v items = Returns (Ok res) ->
     dom res ⊆ {["pxc"]}) /\
  (forall other spec spec' res,
     Type_ (config v) = "pxc" ->
     Spec db = Some spec -> Spec_Type spec = "pxc" -> checkIfSkip v db = false ->
     Spec other = Some spec' -> Spec_Type spec' = "psmdb" ->
     parseVersions v [db; other] = Returns (Ok res) ->
     dom res = {["pxc"]}).
Proof.
  assert (Hsurvivors : forall items res engineType,
     parseVersions v items = Returns (Ok res) ->
     engineType ∈ dom res ->
     exists db' spec, db' ∈ items /\ checkIfSkip v db' = false /\
                      Spec db' = Some spec /\ Spec_Type spec = engineType).
  { intros items res engineType Hparse Hin.
    apply (parseVersions_loop_dom _ _ _ _ _ Hparse) in Hin as [Hin|?]; [|done].
    by rewrite dom_empty_L in Hin. }
  assert (Hfilter : forall items res,
     Type_ (config v) = "pxc" ->
     parseVersions v items = Returns (Ok res) ->
     dom res ⊆ {["pxc"]}).
  { intros items res Hpxc Hparse engineType Hin.
    destruct (Hsurvivors _ _ _ Hparse Hin) as (db' & spec & _ & Hskip & Hspec & <-).
    apply checkIfSkip_false in Hskip as (spec' & _ & Hspec' & _ & Hty).
    assert (spec' = spec) as -> by congruence.
    rewrite Hpxc in Hty. destruct Hty as [?|Hty]; [done|].
    rewrite Hty. by apply elem_of_singleton. }
  split; [|split; [done|split; [done|]]].
  - intros Hcase.
    assert (Hskip : checkIfSkip v db = true).
    { destruct (checkIfSkip v db) eqn:Hskip; [done|].
      apply checkIfSkip_false in Hskip as (spec & engine & Hspec & Hengine & Hty).
      unfold engineVersions in Hengine.
      destruct Hcase as [?|[(spec' & ? & ? & ?)|[Hst|[(st & Hst & Hav)|(st & av & Hst & Hav & Hen)]]]].
      - congruence.
      - assert (spec' = spec) as -> by congruence. by destruct Hty.
      - by rewrite Hst in Hengine.
      - rewrite Hst in Hengine. cbn in Hengine. by rewrite Hav in Hengine.
      - rewrite Hst in Hengine. cbn in Hengine. rewrite Hav in Hengine.
        cbn in Hengine. congruence. }
    split; [done|]. intros i rest res. cbn. by rewrite Hskip.
  - intros other spec spec' res Hpxc Hspec Hty Hskip Hspec' Hty' Hparse.
    apply set_eq. intros engineType. split; [by apply (Hfilter _ _ Hpxc Hparse)|].
    intros ->%elem_of_singleton.
    apply (parseVersions_loop_dom _ _ _ _ _ Hparse). right.
    exists db, spec. split; [by left|done].
Qed.

(** C10, as the code has it. A record whose specification, status and
    available versions are set, whose engine map is not nil but empty, and
    whose type passes the type filter, survives the filter; the loop gives
    its engine type a bucket when there is none and adds no version, so the
    catalog of this record alone is one empty bucket; and a catalog with an
    empty bucket renders, for that engine type, the three header lines
    followed by no version line. *)
Theorem empty_engine_map_bucket (v : Versions) (db : DatabaseEngine Info)
    (spec : DatabaseEngineSpec) (status : DatabaseEngineStatus Info)
    (available : AvailableVersions Info) :
  range_keys_enumerates ->
  range_buckets_enumerates ->
  sort_Sort_contract ->
  Spec db = Some spec ->
  Status db = Some status ->
  Status_AvailableVersions status = Some available ->
  Engine available = Some ∅ ->
  Type_ (config v) = "" \/ Spec_Type spec = Type_ (config v) ->
  checkIfSkip v db = false /\
  (forall i rest res,
     parseVersions_loop v i (db :: rest) res
     = parseVersions_loop v (S i) rest (ensureBucket (Spec_Type spec) res)) /\
  parseVersions v [db] = Returns (Ok {[Spec_Type spec := []]}) /\
  (VersionsList_String {[Spec_Type spec := []]}).1
    = strings_Join ["-----"; Spec_Type spec; "-----"] newline /\
  (forall catalog : gmap string (list Version),
     catalog !! Spec_Type spec = Some [] ->
     exists before after,
       range_buckets catalog = before ++ (Spec_Type spec, []) :: after /\
       (VersionsList_String_lines catalog).1
       = concat (rendered_block <$> (sorted_bucket <$> before))
           ++ ["-----"; Spec_Type spec; "-----"]
           ++ concat (rendered_block <$> (sorted_bucket <$> after))).
Proof.
  intros Hkeys Hbuckets [Hperm _] Hspec Hstatus Havailable Hengine Hfilter.
  assert (Hsort_nil : forall less, sort_Sort less [] = []).
  { intros less. apply Permutation_nil_r, Hperm. }
  assert (Hskip : checkIfSkip v db = false).
  { apply checkIfSkip_false. exists spec, ∅. unfold engineVersions.
    rewrite Hstatus. cbn. rewrite Havailable. by cbn. }
  assert (Hstep : forall i rest res,
     parseVersions_loop v i (db :: rest) res
     = parseVersions_loop v (S i) rest (ensureBucket (Spec_Type spec) res)).
  { intros i rest res. cbn. rewrite Hskip, Hspec. unfold engineVersions.
    rewrite Hstatus. cbn. rewrite Havailable. cbn. rewrite Hengine.
    assert (range_keys i (∅ : gmap string Info) = []) as ->; [|done].
    apply Permutation_nil_r. rewrite (Hkeys i ∅). by rewrite map_to_list_empty. }
  assert (Hrender : forall catalog : gmap string (list Version),
     catalog !! Spec_Type spec = Some [] ->
     exists before after,
       range_buckets catalog = before ++ (Spec_Type spec, []) :: after /\
       (VersionsList_String_lines catalog).1
       = concat (rendered_block <$> (sorted_bucket <$> before))
           ++ ["-----"; Spec_Type spec; "-----"]
           ++ concat (rendered_block <$> (sorted_bucket <$> after))).
  { intros catalog Hlook.
    assert (Hin : (Spec_Type spec, []) ∈ range_buckets catalog).
    { rewrite (Hbuckets catalog). by apply elem_of_map_to_list. }
    apply list_elem_of_split in Hin as (before & after & Hsplit).
    exists before, after. split; [done|].
    unfold VersionsList_String_lines.
    rewrite VersionsList_String_loop_lines, Hsplit. cbn.
    rewrite !fmap_app, concat_app. cbn.
    unfold rendered_block at 2, sorted_bucket at 2. cbn.
    by rewrite Hsort_nil. }
  split; [done|]. split; [done|]. split; [|split; [|done]].
  - unfold parseVersions. rewrite Hstep. cbn. unfold ensureBucket.
    rewrite lookup_empty. by rewrite insert_empty.
  - destruct (Hrender {[Spec_Type spec := []]}) as (before & after & Hsplit & Hlines);
      [by rewrite lookup_singleton_eq|].
    assert (Hone : range_buckets {[Spec_Type spec := []]} = [(Spec_Type spec, [])]).
    { apply Permutation_singleton_r.
      rewrite (Hbuckets {[Spec_Type spec := []]}). by rewrite map_to_list_singleton. }
    rewrite Hone in Hsplit.
    assert (before = [] /\ after = []) as [-> ->].
    { destruct before as [|b before]; [by injection Hsplit as <-|].
      injection Hsplit as _ Hrest. by destruct before. }
    unfold VersionsList_String. cbn in Hlines.
    destruct (VersionsList_String_lines {[Spec_Type spec := []]}) as [out v'].
    cbn in Hlines. by rewrite Hlines.
Qed.

(** ** Further behaviour of [Run] and [parseVersions] *)

Definition listRequest (v : Versions) : Event := ListRequested (KubernetesID (config v)).

(** The versions held for an engine type; none when it has no bucket. *)
Definition bucket (res : gmap string (list Version)) (engineType : string)
  : list Version := default [] (res !! engineType).

(** X13. An error of the control plane is returned unchanged, without a
    catalog, after the one list request. *)
Theorem Run_client_error (v : Versions) (t : list Event) (err : error) :
  ListDatabaseEngines (KubernetesID (config v)) (t ++ [listRequest v]) = Err err ->
  Run v t = (Returns (Err err), t ++ [listRequest v]).
Proof. intros Hlist. unfold Run. run_cmd. fold (listRequest v). by rewrite Hlist. Qed.

Lemma parseVersions_loop_all_skipped v i items res :
  Forall (fun db => checkIfSkip v db = true) items ->
  parseVersions_loop v i items res = Returns (Ok res).
Proof.
  intros Hall. revert i. induction Hall as [|db rest Hskip _ IH]; intros i; cbn; [done|].
  by rewrite Hskip.
Qed.

(** X14. When the control plane returns no item list, an empty one, or
    one whose records are all skipped, [Run] returns the empty catalog and
    no error; the empty catalog renders as the empty string. *)
Theorem Run_nothing_to_list (v : Versions) (t : list Event)
    (dbEngines : DatabaseEngineList Info) :
  range_buckets_enumerates ->
  ListDatabaseEngines (KubernetesID (config v)) (t ++ [listRequest v]) = Ok dbEngines ->
  Items dbEngines = None \/
  (exists items, Items dbEngines = Some items /\
                 Forall (fun db => checkIfSkip v db = true) items) ->
  Run v t = (Returns (Ok ∅), t ++ [listRequest v]) /\
  VersionsList_String ∅ = ("", ∅).
Proof.
  intros Henum Hlist Hitems. split.
  - unfold Run. run_cmd. fold (listRequest v). rewrite Hlist. cbn.
    destruct Hitems as [->|(items & -> & Hall)]; [done|].
    unfold parseVersions. by rewrite parseVersions_loop_all_skipped.
  - unfold VersionsList_String, VersionsList_String_lines.
    assert (range_buckets ∅ = []) as ->; [|done].
    apply Permutation_nil_r. rewrite (Henum ∅). by rewrite map_to_list_empty.
Qed.

(** X15. [Run] dereferences no nil pointer: whatever the control plane
    returns, it returns and does not panic, because [checkIfSkip] guards
    every pointer that [parseVersions] follows. *)
Theorem Run_never_panics (v : Versions) (t : list Event) :
  exists r, fst (Run v t) = Returns r.
Proof.
  unfold Run. run_cmd.
  destruct (ListDatabaseEngines _ _) as [dbEngines|err]; cbn; [|by eauto].
  destruct (Items dbEngines) as [items|]; cbn; [|by eauto].
  apply parseVersions_loop_returns.
Qed.

(** X18. Nothing else is skipped: a record survives the filter exactly
    when it has a specification, a status, available versions and an engine
    map, and its type is the requested one or none was requested. *)
Theorem checkIfSkip_exact (v : Versions) (db : DatabaseEngine Info) :
  checkIfSkip v db = false <->
  exists spec status available engine,
    Spec db = Some spec /\ Status db = Some status /\
    Status_AvailableVersions status = Some available /\
    Engine available = Some engine /\
    (Type_ (config v) = "" \/ Spec_Type spec = Type_ (config v)).
Proof.
  rewrite checkIfSkip_false. unfold engineVersions. split.
  - intros (spec & engine & Hspec & Hengine & Hfilter).
    destruct (Status db) as [status|]; [|done]. cbn in Hengine.
    destruct (Status_AvailableVersions status) as [available|] eqn:Hav; [|done].
    cbn in Hengine. by exists spec, status, available, engine.
  - intros (spec & status & available & engine & Hspec & -> & Hav & Hen & Hfilter).
    exists spec, engine. cbn. rewrite Hav. by cbn.
Qed.

Lemma ensureBucket_bucket engineType (res : gmap string (list Version)) ty :
  bucket (ensureBucket engineType res) ty = bucket res ty.
Proof.
  unfold bucket, ensureBucket. destruct (res !! engineType) eqn:Hlook; [done|].
  destruct (decide (engineType = ty)) as [<-|Hne].
  - by rewrite lookup_insert_eq, Hlook.
  - by rewrite lookup_insert_ne.
Qed.

(** The inner loop appends, to the bucket of [engineType] alone, the
    versions its keys parse to, in the order of the keys. *)
Lemma appendVersions_Ok engineType keys res res' :
  appendVersions engineType keys res = Ok res' ->
  exists parsed,
    goversion_NewVersion <$> keys = Ok <$> parsed /\
    bucket res' engineType = bucket res engineType ++ parsed /\
    forall ty, ty <> engineType -> bucket res' ty = bucket res ty.
Proof.
  revert res. induction keys as [|key rest IH]; intros res; cbn.
  - intros [= ->]. exists []. by rewrite app_nil_r.
  - destruct (goversion_NewVersion key) as [ver|err] eqn:Hparse; [|done].
    intros (parsed & Hparsed & Hbucket & Hothers)%IH.
    exists (ver :: parsed). cbn. rewrite Hparsed. split; [done|]. split.
    + rewrite Hbucket. unfold bucket at 1. rewrite lookup_insert_eq. cbn.
      by rewrite <- app_assoc.
    + intros ty Hne. rewrite (Hothers ty Hne). unfold bucket.
      by rewrite lookup_insert_ne.
Qed.

Lemma range_keys_elem_of :
  range_keys_enumerates ->
  forall i (m : gmap string Info) key, key ∈ range_keys i m <-> is_Some (m !! key).
Proof.
  intros Henum i m key. rewrite (Henum i m), list_elem_of_fmap. split.
  - intros ([k x] & -> & Hx%elem_of_map_to_list). by exists x.
  - intros [x Hx]. exists (key, x). split; [done|by apply elem_of_map_to_list].
Qed.

(** A version parsed from a key of the engine map of a surviving record
    of type [engineType]. *)
Definition listed (v : Versions) (items : list (DatabaseEngine Info))
    (engineType : string) (ver : Version) : Prop :=
  exists db spec engine key,
    db ∈ items /\ checkIfSkip v db = false /\
    Spec db = Some spec /\ Spec_Type spec = engineType /\
    engineVersions db = Some engine /\ is_Some (engine !! key) /\
    goversion_NewVersion key = Ok ver.

Lemma listed_cons v db items engineType ver :
  listed v (db :: items) engineType ver <->
  listed v [db] engineType ver \/ listed v items engineType ver.
Proof.
  unfold listed. split.
  - intros (d & spec & engine & key & Hin & Hrest).
    apply elem_of_cons in Hin as [->|Hin].
    + left. exists db, spec, engine, key. split; [by left|done].
    + right. by exists d, spec, engine, key.
  - intros [(d & spec & engine & key & Hin & Hrest)|(d & spec & engine & key & Hin & Hrest)].
    + apply list_elem_of_singleton in Hin as ->.
      exists db, spec, engine, key. split; [by left|done].
    + exists d, spec, engine, key. split; [by right|done].
Qed.

Lemma parseVersions_loop_members v i items res res' :
  range_keys_enumerates ->
  parseVersions_loop v i items res = Returns (Ok res') ->
  forall engineType ver,
    ver ∈ bucket res' engineType <->
    ver ∈ bucket res engineType \/ listed v items engineType ver.
Proof.
  clear Original LessThan sort_Sort range_buckets.
  intros Henum. revert i res. induction items as [|db rest IH]; intros i res; cbn.
  - intros [= ->] engineType ver. split; [by left|].
    intros [?|(d & ? & ? & ? & Hin & _)]; [done|by apply elem_of_nil in Hin].
  - destruct (checkIfSkip v db) eqn:Hskip.
    + intros Hloop engineType ver. rewrite (IH _ _ Hloop), listed_cons.
      assert (~ listed v [db] engineType ver).
      { intros (d & ? & ? & ? & Hin & Hskip' & _).
        apply list_elem_of_singleton in Hin as ->. congruence. }
      tauto.
    + pose proof Hskip as (spec & engine & Hspec & Hengine & _)%checkIfSkip_false.
      rewrite Hspec, Hengine.
      destruct (appendVersions _ _ _) as [res1|err] eqn:Happend; [|done].
      intros Hloop engineType ver. rewrite (IH _ _ Hloop), listed_cons.
      apply appendVersions_Ok in Happend as (parsed & Hparsed & Hbucket & Hothers).
      assert (Hmember : forall x, x ∈ parsed <->
                listed v [db] (Spec_Type spec) x).
      { intros x. split.
        - intros Hx. assert (Hok : Ok x ∈ Ok <$> parsed) by (by apply list_elem_of_fmap_2).
          rewrite <- Hparsed in Hok. apply list_elem_of_fmap in Hok as (key & Hkey & Hin).
          exists db, spec, engine, key. split; [by left|].
          repeat split; [done..|by apply (range_keys_elem_of Henum i)|done].
        - intros (d & spec' & engine' & key & Hin & _ & Hspec' & _ & Hengine' & Hkey & Hok).
          apply list_elem_of_singleton in Hin as ->.
          assert (engine' = engine) as -> by congruence.
          apply (range_keys_elem_of Henum i) in Hkey.
          assert (Hin : Ok x ∈ goversion_NewVersion <$> range_keys i engine).
          { rewrite <- Hok. by apply list_elem_of_fmap_2. }
          rewrite Hparsed in Hin. apply list_elem_of_fmap in Hin as (x' & [= ->] & Hx').
          done. }
      destruct (decide (engineType = Spec_Type spec)) as [->|Hne].
      * rewrite Hbucket, ensureBucket_bucket, elem_of_app, Hmember. tauto.
      * rewrite (Hothers _ Hne), ensureBucket_bucket.
        assert (~ listed v [db] engineType ver).
        { intros (d & spec' & ? & ? & Hin & _ & Hspec' & Hty & _).
          apply list_elem_of_singleton in Hin as ->. congruence. }
        tauto.
Qed.

(** X16. On success the catalog holds, for every engine type, exactly the
    versions parsed from the keys of the engine maps of the surviving
    records of that type: nothing is lost and nothing else is added. *)
Theorem parseVersions_catalog_members (v : Versions)
    (items : list (DatabaseEngine Info)) (res : gmap string (list Version)) :
  range_keys_enumerates ->
  parseVersions v items = Returns (Ok res) ->
  forall engineType ver,
    ver ∈ bucket res engineType <-> listed v items engineType ver.
Proof.
  intros Henum Hparse engineType ver.
  rewrite (parseVersions_loop_members v 0 items ∅ res Henum Hparse).
  unfold bucket at 1. rewrite lookup_empty. cbn. split; [|by right].
  intros [Hin|?]; [by apply elem_of_nil in Hin|done].
Qed.

Lemma parseVersions_loop_Err_inv v i items res err :
  range_keys_enumerates ->
  parseVersions_loop v i items res = Returns (Err err) ->
  exists db engine key,
    db ∈ items /\ checkIfSkip v db = false /\ engineVersions db = Some engine /\
    is_Some (engine !! key) /\ goversion_NewVersion key = Err err.
Proof.
  intros Henum. revert i res. induction items as [|db rest IH]; intros i res; cbn; [done|].
  destruct (checkIfSkip v db) eqn:Hskip.
  - intros (d & engine & key & Hin & Hrest)%IH.
    exists d, engine, key. split; [by right|done].
  - pose proof Hskip as (spec & engine & Hspec & Hengine & _)%checkIfSkip_false.
    rewrite Hspec, Hengine.
    destruct (appendVersions _ _ _) as [res1|err'] eqn:Happend.
    + intros (d & engine' & key & Hin & Hrest)%IH.
      exists d, engine', key. split; [by right|done].
    + intros [= ->].
      apply appendVersions_Err_inv in Happend as (key & Hkey & Hparse).
      exists db, engine, key. split; [by left|].
      repeat split; [done..|by apply (range_keys_elem_of Henum i)|done].
Qed.

(** X17. [parseVersions] fails exactly when some surviving record has a
    key that the version parser rejects; when every key of every surviving
    record parses, it returns a catalog. *)
Theorem parseVersions_fails_iff (v : Versions) (items : list (DatabaseEngine Info)) :
  range_keys_enumerates ->
  ((exists err, parseVersions v items = Returns (Err err)) <->
   (exists db engine key,
      db ∈ items /\ checkIfSkip v db = false /\ engineVersions db = Some engine /\
      is_Some (engine !! key) /\ is_Err (goversion_NewVersion key))) /\
  ((forall db engine key,
      db ∈ items -> checkIfSkip v db = false -> engineVersions db = Some engine ->
      is_Some (engine !! key) -> exists ver, goversion_NewVersion key = Ok ver) ->
   exists res, parseVersions v items = Returns (Ok res)).
Proof.
  intros Henum.
  assert (Hiff : (exists err, parseVersions v items = Returns (Err err)) <->
   (exists db engine key,
      db ∈ items /\ checkIfSkip v db = false /\ engineVersions db = Some engine /\
      is_Some (engine !! key) /\ is_Err (goversion_NewVersion key))).
  { split.
    - intros [err (db & engine & key & ? & ? & ? & ? & Hparse)%parseVersions_loop_Err_inv];
        [|done].
      exists db, engine, key. by rewrite Hparse.
    - intros (db & engine & key & Hin & Hskip & Hengine & Hkey & Hbad).
      destruct (parseVersions_loop_unparsable v 0 items ∅ db engine key)
        as (err & Herr & _); [done..|].
      by exists err. }
  split; [done|]. intros Hall.
  destruct (parseVersions_loop_returns v 0 items ∅) as [[res|err] Hr]; [by exists res|].
  assert (Hex : exists err, parseVersions v items = Returns (Err err)) by (by exists err).
  apply Hiff in Hex as (db & engine & key & Hin & Hskip & Hengine & Hkey & Hbad).
  destruct (Hall db engine key) as [ver Hver]; [done..|].
  by rewrite Hver in Hbad.
Qed.

End Command.

(** ** Concrete collaborators

    Stand-ins for the version library, the sort of the standard library, the
    enumeration order of maps and the control plane, used to run the command
    on concrete records. *)

Record SampleVersion : Type := {
  major : N; minor : N; patch : N;
  original : string
}.

Definition digit_value (c : Ascii.ascii) : option N :=
  let n := Ascii.nat_of_ascii c in
  if (48 <=? n)%nat && (n <=? 57)%nat then Some (N.of_nat (n - 48)) else None.

(** The decimal number a non-empty string of digits writes. *)
Definition number (s : string) : option N :=
  match s with
  | EmptyString => None
  | _ => foldl (fun (acc : option N) c =>
                  n ← acc ; d ← digit_value c ; Some (10 * n + d)%N)
               (Some 0%N) (String.list_ascii_of_string s)
  end.

(** The fields of [s] between dots, [current] being the field read so far. *)
Fixpoint dotted (s : string) (current : string) : list string :=
  match s with
  | EmptyString => [current]
  | String c rest =>
      if Ascii.eqb c (Ascii.ascii_of_nat 46) then current :: dotted rest EmptyString
      else dotted rest (current +:+ String c EmptyString)
  end.

(** Modelled from the spec: the semantic-version parser of the version
    library, which is not part of the repository, restricted to the numeric
    core [MAJOR.MINOR.PATCH]; anything else is rejected. *)
Definition sample_NewVersion (s : string) : result SampleVersion :=
  match number <$> dotted s EmptyString with
  | [Some ma; Some mi; Some pa] =>
      Ok {| major := ma; minor := mi; patch := pa; original := s |}
  | _ => Err (New ("Malformed version: " +:+ s))
  end.

(** Modelled from the spec: numeric precedence, major, then minor, then
    patch. *)
Definition sample_LessThan (a b : SampleVersion) : bool :=
  (major a <? major b)%N
  || ((major a =? major b)%N
      && ((minor a <? minor b)%N
          || ((minor a =? minor b)%N && (patch a <? patch b)%N))).

(** A sort that meets the contract of [sort.Sort]. *)
Definition sample_sort_Sort (less : SampleVersion -> SampleVersion -> bool)
    (l : list SampleVersion) : list SampleVersion :=
  @merge_sort _ (fun a b => less b a = false)
    (fun a b => bool_eq_dec (less b a) false) l.

Definition sample_range_keys (i : nat) (m : gmap string unit) : list string :=
  (map_to_list m).*1.

Definition sample_range_buckets (v : gmap string (list SampleVersion))
  : list (string * list SampleVersion) := map_to_list v.

Ltac bool_to_arith :=
  repeat first [ rewrite orb_true_iff | rewrite andb_true_iff
               | rewrite N.ltb_lt | rewrite N.eqb_eq ].

Lemma sample_LessThan_StrictWeakOrder : StrictWeakOrder sample_LessThan.
Proof.
  unfold sample_LessThan. split.
  - intros a. apply not_true_iff_false. bool_to_arith. lia.
  - intros a b c. bool_to_arith. lia.
  - intros a b c. bool_to_arith. lia.
Defined.

Lemma sample_sort_Sort_contract : sort_Sort_contract sample_sort_Sort.
Proof.
  split.
  - intros less l. apply merge_sort_Permutation.
  - intros less l [Hirr Htr Hneg]. apply StronglySorted_merge_sort.
    + intros a b c Hab Hbc. apply not_true_iff_false. intros Hca.
      destruct (Hneg c b a Hca); congruence.
    + intros a b. destruct (less b a) eqn:Hba; [|by left]. right.
      apply not_true_iff_false. intros Hab.
      pose proof (Htr _ _ _ Hab Hba). by rewrite Hirr in H.
Defined.

Lemma sample_range_keys_enumerates : range_keys_enumerates sample_range_keys.
Proof. by intros i m. Defined.

Lemma sample_range_buckets_enumerates :
  range_buckets_enumerates sample_range_buckets.
Proof. by intros v. Defined.

Definition sample_String :=
  VersionsList_String original sample_LessThan sample_sort_Sort sample_range_buckets.

Definition sample_version (ma mi pa : N) (s : string) : SampleVersion :=
  {| major := ma; minor := mi; patch := pa; original := s |}.

(** One bucket, holding 1.0.0, 2.1.0 and 1.9.9 in this order. *)
Definition sample_catalog : gmap string (list SampleVersion) :=
  {[ "pxc" := [sample_version 1 0 0 "1.0.0"; sample_version 2 1 0 "2.1.0";
               sample_version 1 9 9 "1.9.9"] ]}.

Definition sample_record (type : string) (engine : option (list string))
  : DatabaseEngine unit :=
  {| Spec := Some {| Spec_Type := type |};
     Status := Some {| Status_AvailableVersions :=
       Some {| Engine := (fun keys => list_to_map ((fun k => (k, tt)) <$> keys))
                           <$> engine |} |} |}.

Definition sample_versions (type : string) : @Versions :=
  NewVersions {| KubernetesID := "k8s";
                 Everest := {| Endpoint := "http://127.0.0.1:8081" |};
                 Type_ := type |}.

Definition sample_parseVersions :=
  parseVersions (Info := unit) sample_NewVersion sample_range_keys.

#[local] Instance sample_everestClient (items : list (DatabaseEngine unit))
  : @everestClientConnector unit :=
  {| ListDatabaseEngines := fun _ _ => Ok {| Items := Some items |} |}.

Definition sample_Run (items : list (DatabaseEngine unit)) :=
  Run (everestClient := sample_everestClient items) sample_NewVersion sample_range_keys.

(** The header of a block is three lines, not one: for the bucket holding
    1.0.0, 2.1.0 and 1.9.9 the output starts with the line [-----], and is
    not the text whose first line is [-----pxc-----]. *)
Lemma VersionsList_String_header_three_lines :
  (sample_String sample_catalog).1
    = strings_Join ["-----"; "pxc"; "-----"; "2.1.0"; "1.9.9"; "1.0.0"] newline /\
  (sample_String sample_catalog).1
    <> strings_Join ["-----pxc-----"; "2.1.0"; "1.9.9"; "1.0.0"] newline.
Proof. split; vm_compute; [reflexivity|discriminate]. Qed.

(** C7 at [sample_catalog]. *)
Lemma VersionsList_String_blocks_witness :
  exists blocks : list (string * list SampleVersion),
    (sample_String sample_catalog).1
      = strings_Join (concat (rendered_block original <$> blocks)) newline /\
    blocks.*1 ≡ₚ (map_to_list sample_catalog).*1 /\
    NoDup blocks.*1 /\
    Forall (fun block =>
              exists versions, sample_catalog !! block.1 = Some versions /\
                block.2 ≡ₚ versions /\ descending sample_LessThan block.2) blocks.
Proof.
  exact (VersionsList_String_blocks original sample_LessThan sample_sort_Sort
           sample_range_buckets sample_catalog sample_range_buckets_enumerates
           sample_sort_Sort_contract sample_LessThan_StrictWeakOrder).
Defined.

(** Rendering reorders the bucket it renders: the catalog holds 1.0.0,
    2.1.0, 1.9.9 before the call and 2.1.0, 1.9.9, 1.0.0 after it. *)
Lemma VersionsList_String_reorders_bucket :
  sample_catalog !! "pxc"
    = Some [sample_version 1 0 0 "1.0.0"; sample_version 2 1 0 "2.1.0";
            sample_version 1 9 9 "1.9.9"] /\
  (sample_String sample_catalog).2 !! "pxc"
    = Some [sample_version 2 1 0 "2.1.0"; sample_version 1 9 9 "1.9.9";
            sample_version 1 0 0 "1.0.0"] /\
  (sample_String sample_catalog).2 <> sample_catalog.
Proof.
  split; [vm_compute; reflexivity|]. split; [vm_compute; reflexivity|].
  intros Heq. apply (f_equal (fun m => m !! "pxc")) in Heq.
  vm_compute in Heq. discriminate Heq.
Qed.

(** C8 at [sample_catalog]. *)
Lemma VersionsList_String_sorts_in_place_witness :
  dom (sample_String sample_catalog).2 = dom sample_catalog /\
  forall engine versions,
    sample_catalog !! engine = Some versions ->
    exists versions',
      (sample_String sample_catalog).2 !! engine = Some versions' /\
      versions' = sample_sort_Sort (reverseLess sample_LessThan) versions /\
      versions' ≡ₚ versions /\
      descending sample_LessThan versions'.
Proof.
  exact (VersionsList_String_sorts_in_place original sample_LessThan sample_sort_Sort
           sample_range_buckets sample_catalog sample_range_buckets_enumerates
           sample_sort_Sort_contract sample_LessThan_StrictWeakOrder).
Defined.

(** A record whose engine map lists 8.0.31 and a string that is no
    version. *)
Definition bad_version_record : DatabaseEngine unit :=
  sample_record "pxc" (Some ["8.0.31"; "eight"]).

(** C9 at the list holding [bad_version_record] alone, without a type
    filter. *)
Lemma Run_unparsable_version_witness :
  exists err,
    sample_Run [bad_version_record] (sample_versions "") []
      = (Returns (Err err), [ListRequested "k8s"]) /\
    exists db' engine' version',
      db' ∈ [bad_version_record] /\
      checkIfSkip (sample_versions "") db' = false /\
      engineVersions db' = Some engine' /\ is_Some (engine' !! version') /\
      sample_NewVersion version' = Err err.
Proof.
  refine (Run_unparsable_version (everestClient := sample_everestClient _)
            sample_NewVersion sample_range_keys (sample_versions "") []
            [bad_version_record] bad_version_record
            (list_to_map [("8.0.31", tt); ("eight", tt)]) "eight"
            sample_range_keys_enumerates eq_refl _ eq_refl eq_refl _ I).
  - apply list_elem_of_here.
  - exists tt. vm_compute. reflexivity.
Defined.

(** With the type filter ["pxc"], a ["psmdb"] record with specification,
    status and an empty engine map is skipped: it gets no bucket and the
    output is empty. *)
Lemma filtered_empty_engine_map_skipped :
  checkIfSkip (sample_versions "pxc") (sample_record "psmdb" (Some [])) = true /\
  sample_parseVersions (sample_versions "pxc") [sample_record "psmdb" (Some [])]
    = Returns (Ok ∅) /\
  (sample_String ∅).1 = "".
Proof. vm_compute. repeat split. Qed.

(** C10 at a ["psmdb"] record with an empty engine map, without a type
    filter. *)
Lemma empty_engine_map_bucket_witness :
  checkIfSkip (sample_versions "") (sample_record "psmdb" (Some [])) = false /\
  sample_parseVersions (sample_versions "") [sample_record "psmdb" (Some [])]
    = Returns (Ok {["psmdb" := []]}) /\
  (sample_String {["psmdb" := []]}).1
    = strings_Join ["-----"; "psmdb"; "-----"] newline.
Proof.
  destruct (empty_engine_map_bucket sample_NewVersion original sample_LessThan
              sample_sort_Sort sample_range_keys sample_range_buckets
              (sample_versions "") (sample_record "psmdb" (Some []))
              {| Spec_Type := "psmdb" |}
              {| Status_AvailableVersions := Some {| Engine := Some ∅ |} |}
              {| Engine := Some ∅ |}
              sample_range_keys_enumerates sample_range_buckets_enumerates
              sample_sort_Sort_contract eq_refl eq_refl eq_refl eq_refl
              (or_introl eq_refl))
    as (Hskip & _ & Hparse & Htext & _).
  split; [exact Hskip|]. split; [exact Hparse|exact Htext].
Defined.

(** The example of C6: a ["pxc"] and a ["psmdb"] record under the type
    filter ["pxc"] give a catalog with the ["pxc"] bucket alone. *)
Example parseVersions_pxc_filter :
  sample_parseVersions (sample_versions "pxc")
    [sample_record "pxc" (Some ["8.0.31"]); sample_record "psmdb" (Some ["6.0.5"])]
  = Returns (Ok {["pxc" := [sample_version 8 0 31 "8.0.31"]]}).
Proof. vm_compute. reflexivity. Qed.

(** ** Further concrete runs *)

(** A control plane that cannot be reached, and one that returns no item
    list. *)
Definition unreachable_everestClient : @everestClientConnector unit :=
  {| ListDatabaseEngines := fun _ _ => Err (New "connection refused") |}.

Definition silent_everestClient : @everestClientConnector unit :=
  {| ListDatabaseEngines := fun _ _ => Ok {| Items := None |} |}.

(** X13 with the unreachable control plane. *)
Lemma Run_client_error_witness :
  Run (everestClient := unreachable_everestClient) sample_NewVersion sample_range_keys
      (sample_versions "") []
  = (Returns (Err (New "connection refused")), [ListRequested "k8s"]).
Proof.
  exact (Run_client_error (everestClient := unreachable_everestClient)
           sample_NewVersion sample_range_keys (sample_versions "") []
           (New "connection refused") eq_refl).
Defined.

(** X14 with the control plane that returns no item list. *)
Lemma Run_nothing_to_list_witness :
  Run (everestClient := silent_everestClient) sample_NewVersion sample_range_keys
      (sample_versions "") []
    = (Returns (Ok ∅), [ListRequested "k8s"]) /\
  sample_String ∅ = ("", ∅).
Proof.
  exact (Run_nothing_to_list (everestClient := silent_everestClient)
           sample_NewVersion original sample_LessThan sample_sort_Sort
           sample_range_keys sample_range_buckets (sample_versions "") []
           {| Items := None |} sample_range_buckets_enumerates eq_refl
           (or_introl eq_refl)).
Defined.

Definition pxc_and_psmdb : list (DatabaseEngine unit) :=
  [sample_record "pxc" (Some ["8.0.31"; "8.0.29"]); sample_record "psmdb" (Some ["6.0.5"])].

(** X16 at a ["pxc"] and a ["psmdb"] record without a type filter: 8.0.29
    is in the ["pxc"] bucket, so it is listed by a ["pxc"] record. *)
Lemma parseVersions_catalog_members_witness :
  exists res,
    sample_parseVersions (sample_versions "") pxc_and_psmdb = Returns (Ok res) /\
    listed sample_NewVersion (sample_versions "") pxc_and_psmdb "pxc"
      (sample_version 8 0 29 "8.0.29").
Proof.
  set (res := match sample_parseVersions (sample_versions "") pxc_and_psmdb with
              | Returns (Ok res) => res
              | _ => ∅
              end).
  assert (Hparse : sample_parseVersions (sample_versions "") pxc_and_psmdb
                   = Returns (Ok res)).
  { vm_compute. reflexivity. }
  exists res. split; [exact Hparse|].
  apply (parseVersions_catalog_members sample_NewVersion sample_range_keys
           (sample_versions "") pxc_and_psmdb _ sample_range_keys_enumerates Hparse).
  vm_compute. repeat first [apply list_elem_of_here | apply list_elem_of_further].
Defined.

(** X17 at the list holding [bad_version_record] alone. *)
Lemma parseVersions_fails_iff_witness :
  exists err,
    sample_parseVersions (sample_versions "") [bad_version_record] = Returns (Err err).
Proof.
  apply (proj1 (parseVersions_fails_iff sample_NewVersion sample_range_keys
                  (sample_versions "") [bad_version_record]
                  sample_range_keys_enumerates)).
  exists bad_version_record, (list_to_map [("8.0.31", tt); ("eight", tt)]), "eight".
  split; [apply list_elem_of_here|]. split; [reflexivity|]. split; [reflexivity|].
  split; [exists tt; vm_compute; reflexivity|exact I].
Defined.

End ListVersions.

(** * Package password: the reset command *)

Module Password.

(** ResetConfig stores configuration for the reset command. *)
Record ResetConfig : Type := {
  (** KubeconfigPath is a path to a kubeconfig *)
  KubeconfigPath : string;
  (** Namespace defines the namespace password shall be reset in. *)
  Namespace : string
}.

(** ResetResponse is a response from the reset command. *)
Record ResetResponse : Type := {
  (** Password is the plain-text password generated by the command. *)
  Password : string
}.

Definition passwordSecretName : string := "everest-password".

(** The fields of [corev1.Namespace] and [corev1.Secret] the command reads
    or sets. *)
Record NamespaceObject : Type := { UID : string }.
Record TypeMeta : Type := { APIVersion : string; Kind : string }.
Record ObjectMeta : Type := { Meta_Name : string; Meta_Namespace : string }.
Inductive SecretType : Type := SecretTypeOpaque.
Record Secret : Type := {
  Secret_TypeMeta : TypeMeta;
  Secret_ObjectMeta : ObjectMeta;
  Secret_Type : SecretType;
  Data : gmap string (list Byte.byte)
}.

(** A call of [GetNamespace], and a call of [SetSecret] with the error it
    returned. *)
Inductive Event : Type :=
| NamespaceRead (name : string)
| SecretSet (secret : Secret) (err : option error).

(** The two methods of the Kubernetes client the command calls. *)
Class kubeClient : Type := {
  GetNamespace : string -> list Event -> result NamespaceObject;
  SetSecret : Secret -> list Event -> option error
}.

(** Modelled from the spec: the upsert of the cluster-access client, whose
    code is not among the sources: a call that returns no error stores the
    secret under its namespace and name, replacing any prior value. *)
Definition persisted (t : list Event) : gmap (string * string) Secret :=
  foldl (fun store e =>
           match e with
           | SecretSet secret None =>
               <[(Meta_Namespace (Secret_ObjectMeta secret),
                  Meta_Name (Secret_ObjectMeta secret)) := secret]> store
           | _ => store
           end) ∅ t.

(** [[]byte(s)] *)
Definition bytes (s : string) : list Byte.byte := String.list_byte_of_string s.
#[global] Arguments bytes : simpl never.

Section Command.
(** [uniuri.NewLen]: a random string of the given length, drawn anew at
    every point of the trace. *)
Variable uniuri_NewLen : nat -> list Event -> string.
(** [pbkdf2.Key password salt iter keyLen h] and the hash [sha256.New]. *)
Context {Hash : Type}.
Variable sha256_New : Hash.
Variable pbkdf2_Key :
  list Byte.byte -> list Byte.byte -> nat -> nat -> Hash -> list Byte.byte.
Context {client : kubeClient}.

Record Reset : Type := NewReset { config : ResetConfig }.

(** The secret [Run] writes for a hash. *)
Definition passwordSecret (r : Reset) (hash : list Byte.byte) : Secret :=
  {| Secret_TypeMeta := {| APIVersion := "v1"; Kind := "Secret" |};
     Secret_ObjectMeta := {| Meta_Name := passwordSecretName;
                             Meta_Namespace := Namespace (config r) |};
     Secret_Type := SecretTypeOpaque;
     Data := {["password" := hash]} |}.

(** Run runs the reset command. *)
Definition Run (r : Reset) : Cmd Event (result ResetResponse) :=
  ns ← (emit (NamespaceRead (Namespace (config r))) ;;
        observe (GetNamespace (Namespace (config r)))) ;
  match ns with
  | Err err =>
      mret (Err (Join err (New "could not get namespace from Kubernetes")))
  | Ok ns =>
      newPassword ← observe (uniuri_NewLen 128) ;
      let salt := bytes (UID ns) in
      let hash := pbkdf2_Key (bytes newPassword) salt 4096 32 sha256_New in
      let secret := passwordSecret r hash in
      err ← (err ← observe (SetSecret secret) ;
             emit (SecretSet secret err) ;; mret err) ;
      match err with
      | Some err =>
          mret (Err (Join err (New "could not update password in Kubernetes")))
      | None => mret (Ok {| Password := newPassword |})
      end
  end.

(** What the libraries promise about lengths: the derived key has the
    requested length, the random string the requested number of characters. *)
Definition lengths_as_requested : Prop :=
  (forall password salt iter keyLen h,
     length (pbkdf2_Key password salt iter keyLen h) = keyLen) /\
  (forall n t, String.length (uniuri_NewLen n t) = n).

Lemma length_bytes (s : string) : length (bytes s) = String.length s.
Proof.
  unfold bytes, String.list_byte_of_string. rewrite length_map.
  induction s as [|c s IH]; cbn; congruence.
Qed.

Lemma persisted_snoc (t : list Event) (secret : Secret) :
  persisted (t ++ [SecretSet secret None])
  = <[(Meta_Namespace (Secret_ObjectMeta secret),
       Meta_Name (Secret_ObjectMeta secret)) := secret]> (persisted t).
Proof. unfold persisted. by rewrite foldl_app. Qed.

Lemma persisted_read (t : list Event) (name : string) :
  persisted (t ++ [NamespaceRead name]) = persisted t.
Proof. unfold persisted. by rewrite foldl_app. Qed.

(** C2. After a successful [Run], the secret stored for the target
    namespace under the name [everest-password] is the one [Run] wrote; its
    only data key is [password], whose value is the PBKDF2 key of the
    generated plaintext with the namespace UID as salt, 4096 iterations,
    32 bytes and SHA-256; no data value is the plaintext, which is what the
    response carries. *)
Theorem Run_persists_derived_hash (r : Reset) (t t' : list Event)
    (response : ResetResponse) :
  lengths_as_requested ->
  Run r t = (Ok response, t') ->
  exists ns secret,
    GetNamespace (Namespace (config r)) (t ++ [NamespaceRead (Namespace (config r))])
      = Ok ns /\
    Password response
      = uniuri_NewLen 128 (t ++ [NamespaceRead (Namespace (config r))]) /\
    t' = t ++ [NamespaceRead (Namespace (config r)); SecretSet secret None] /\
    persisted t' !! (Namespace (config r), "everest-password") = Some secret /\
    Meta_Name (Secret_ObjectMeta secret) = "everest-password" /\
    Meta_Namespace (Secret_ObjectMeta secret) = Namespace (config r) /\
    Data secret
      = {["password" := pbkdf2_Key (bytes (Password response)) (bytes (UID ns))
                          4096 32 sha256_New]} /\
    (forall key value, Data secret !! key = Some value ->
                       key = "password" /\ value <> bytes (Password response)).
Proof.
  intros [Hkey Hrandom]. unfold Run. run_cmd.
  destruct (GetNamespace _ _) as [ns|err] eqn:Hns; cbn; [|by intros [=]].
  destruct (SetSecret _ _) as [err|] eqn:Hset; cbn; [by intros [=]|].
  intros [= <- <-]. cbn.
  eexists ns, _. split; [done|]. split; [done|].
  split; [by rewrite <- app_assoc|].
  split.
  { rewrite <- app_assoc.
    change [NamespaceRead (Namespace (config r));
            SecretSet ?s None] with ([NamespaceRead (Namespace (config r))] ++ [SecretSet s None]).
    rewrite app_assoc, persisted_snoc. cbn. apply lookup_insert_eq. }
  split; [done|]. split; [done|]. split; [done|].
  intros key value Hdata. unfold passwordSecret in Hdata. cbn [Data] in Hdata.
  apply lookup_singleton_Some in Hdata as [<- <-]. split; [done|].
  intros Heq. apply (f_equal length) in Heq.
  rewrite Hkey, length_bytes, Hrandom in Heq. discriminate Heq.
Qed.
(** ** Further behaviour of [Run] *)

Definition namespaceRead (r : Reset) : Event := NamespaceRead (Namespace (config r)).

(** The secret [Run] builds once it has read the namespace [ns] from the
    trace [t]. *)
Definition writtenSecret (r : Reset) (ns : NamespaceObject) (t : list Event) : Secret :=
  passwordSecret r
    (pbkdf2_Key (bytes (uniuri_NewLen 128 (t ++ [namespaceRead r])))
       (bytes (UID ns)) 4096 32 sha256_New).

(** X19. When the namespace cannot be read, [Run] returns the client's
    error joined with [could not get namespace from Kubernetes], whose
    message is the two messages on two lines; it returns no password and
    makes no call to [SetSecret]. *)
Theorem Run_namespace_error (r : Reset) (t : list Event) (err : error) :
  GetNamespace (Namespace (config r)) (t ++ [namespaceRead r]) = Err err ->
  Run r t = (Err (Join err (New "could not get namespace from Kubernetes")),
             t ++ [namespaceRead r]) /\
  Error (Join err (New "could not get namespace from Kubernetes"))
    = Error err +:+ newline +:+ "could not get namespace from Kubernetes" /\
  persisted (snd (Run r t)) = persisted t.
Proof.
  intros Hns.
  assert (Hrun : Run r t
                 = (Err (Join err (New "could not get namespace from Kubernetes")),
                    t ++ [namespaceRead r])).
  { unfold Run. run_cmd. fold (namespaceRead r). by rewrite Hns. }
  split; [done|]. split; [done|].
  rewrite Hrun. apply persisted_read.
Qed.

(** X20. When the secret cannot be written, [Run] returns the client's
    error joined with [could not update password in Kubernetes] and no
    response: the generated password is not returned.  One write was
    attempted, and the stored secrets are as before. *)
Theorem Run_secret_error (r : Reset) (t : list Event) (ns : NamespaceObject)
    (err : error) :
  GetNamespace (Namespace (config r)) (t ++ [namespaceRead r]) = Ok ns ->
  SetSecret (writtenSecret r ns t) (t ++ [namespaceRead r]) = Some err ->
  Run r t = (Err (Join err (New "could not update password in Kubernetes")),
             t ++ [namespaceRead r; SecretSet (writtenSecret r ns t) (Some err)]) /\
  Error (Join err (New "could not update password in Kubernetes"))
    = Error err +:+ newline +:+ "could not update password in Kubernetes" /\
  persisted (snd (Run r t)) = persisted t.
Proof.
  intros Hns Hset.
  assert (Hrun : Run r t
                 = (Err (Join err (New "could not update password in Kubernetes")),
                    t ++ [namespaceRead r;
                          SecretSet (writtenSecret r ns t) (Some err)])).
  { unfold Run. run_cmd. fold (namespaceRead r). rewrite Hns. cbn.
    fold (writtenSecret r ns t). rewrite Hset. cbn. by rewrite <- app_assoc. }
  split; [done|]. split; [done|].
  rewrite Hrun. cbn. unfold persisted. rewrite foldl_app. by cbn.
Qed.

(** The shapes the events of one [Run] can take. *)
Lemma Reset_Run_added_cases (r : Reset) (t : list Event) :
  added_by (Run r) t = [namespaceRead r] \/
  exists ns,
    added_by (Run r) t
    = [namespaceRead r;
       SecretSet (writtenSecret r ns t)
         (SetSecret (writtenSecret r ns t) (t ++ [namespaceRead r]))].
Proof.
  unfold added_by, Run. run_cmd. fold (namespaceRead r).
  destruct (GetNamespace _ _) as [ns|err]; cbn.
  - right. exists ns. fold (writtenSecret r ns t).
    destruct (SetSecret _ _); cbn; by rewrite <- app_assoc, drop_app_length.
  - left. by rewrite drop_app_length.
Qed.


(** X22. [Run] leaves every other stored secret as it was: after the
    run, whether it succeeded or not, the store differs from the one before
    at most at the key of [everest-password] in the configured namespace. *)
Theorem Run_keeps_other_secrets (r : Reset) (t : list Event) (key : string * string) :
  key <> (Namespace (config r), passwordSecretName) ->
  persisted (snd (Run r t)) !! key = persisted t !! key.
Proof.
  intros Hkey.
  assert (Htrace : snd (Run r t) = t ++ added_by (Run r) t).
  { unfold added_by, Run. run_cmd.
    destruct (GetNamespace _ _) as [ns|err]; cbn.
    - destruct (SetSecret _ _); cbn; by rewrite <- !app_assoc, drop_app_length.
    - by rewrite drop_app_length. }
  rewrite Htrace.
  destruct (Reset_Run_added_cases r t) as [->|[ns ->]].
  - unfold namespaceRead. by rewrite persisted_read.
  - unfold persisted. rewrite foldl_app. cbn.
    destruct (SetSecret _ _); [done|].
    by rewrite lookup_insert_ne.
Qed.

End Command.

(** ** Concrete collaborators

    Stand-ins for the random source, the key derivation and the cluster,
    used to run the command once. *)

Inductive SampleHash : Type := SHA256.

(** A string of [n] characters; the real one is random. *)
Fixpoint sample_NewLen_from (n : nat) : string :=
  match n with
  | O => EmptyString
  | S n => String (Ascii.ascii_of_nat (97 + n mod 26)) (sample_NewLen_from n)
  end.

Definition sample_NewLen (n : nat) (t : list Event) : string := sample_NewLen_from n.

Definition byte_sum (l : list Byte.byte) : nat :=
  foldr (fun b acc => Byte.to_nat b + acc) 0 l.

(** A stand-in for the key derivation, not PBKDF2 itself: [keyLen] bytes
    determined by the password, the salt and the iteration count. *)
Definition sample_Key (password salt : list Byte.byte) (iter keyLen : nat)
    (h : SampleHash) : list Byte.byte :=
  (fun i => default Byte.x00
              (Byte.of_nat ((byte_sum password + byte_sum salt + iter + i) mod 256)))
    <$> seq 0 keyLen.

#[local] Instance sample_kubeClient : kubeClient :=
  {| GetNamespace := fun _ _ => Ok {| UID := "6f2a9c1e-41d7-4c0b-9a57-3d0f8b2e7c11" |};
     SetSecret := fun _ _ => None |}.

Definition sample_config : ResetConfig :=
  {| KubeconfigPath := "~/.kube/config"; Namespace := "percona-everest" |}.

Definition sample_Run : Reset -> Cmd Event (result ResetResponse) :=
  Run sample_NewLen SHA256 sample_Key.

Lemma sample_lengths_as_requested : lengths_as_requested sample_NewLen sample_Key.
Proof.
  split.
  - intros password salt iter keyLen h. unfold sample_Key.
    by rewrite length_fmap, length_seq.
  - intros n t. unfold sample_NewLen. induction n as [|n IH]; cbn; congruence.
Defined.

(** C2 at [sample_config], from an empty trace. *)
Lemma Run_persists_derived_hash_witness :
  exists response secret,
    fst (sample_Run (NewReset sample_config) []) = Ok response /\
    persisted (snd (sample_Run (NewReset sample_config) []))
      !! ("percona-everest", "everest-password") = Some secret /\
    Data secret
      = {["password" :=
            sample_Key (bytes (Password response))
              (bytes "6f2a9c1e-41d7-4c0b-9a57-3d0f8b2e7c11") 4096 32 SHA256]} /\
    Data secret !! "password" <> Some (bytes (Password response)).
Proof.
  assert (Hrun : sample_Run (NewReset sample_config) []
                 = (Ok {| Password := sample_NewLen 128
                                        [NamespaceRead "percona-everest"] |},
                    snd (sample_Run (NewReset sample_config) []))).
  { vm_compute. reflexivity. }
  destruct (Run_persists_derived_hash sample_NewLen SHA256 sample_Key
              (NewReset sample_config) [] _ _ sample_lengths_as_requested Hrun)
    as (ns & secret & Hns & _ & _ & Hstored & _ & _ & Hdata & Hplain).
  injection Hns as <-.
  exists {| Password := sample_NewLen 128 [NamespaceRead "percona-everest"] |}, secret.
  split; [reflexivity|]. split; [exact Hstored|]. split; [exact Hdata|].
  intros Hlook. destruct (Hplain _ _ Hlook) as [_ Hne]. exact (Hne eq_refl).
Defined.

(** ** Further concrete runs *)

(** A cluster without the namespace, and one that refuses the write. *)
Definition missing_namespace_client : kubeClient :=
  {| GetNamespace := fun _ _ => Err (New "namespaces not found");
     SetSecret := fun _ _ => None |}.

Definition read_only_client : kubeClient :=
  {| GetNamespace := fun _ _ => Ok {| UID := "6f2a9c1e-41d7-4c0b-9a57-3d0f8b2e7c11" |};
     SetSecret := fun _ _ => Some (New "secrets is forbidden") |}.

(** X19 with the cluster that has no such namespace. *)
Lemma Run_namespace_error_witness :
  Run (client := missing_namespace_client) sample_NewLen SHA256 sample_Key
      (NewReset sample_config) []
  = (Err (Join (New "namespaces not found")
            (New "could not get namespace from Kubernetes")),
     [NamespaceRead "percona-everest"]).
Proof.
  exact (proj1 (Run_namespace_error (client := missing_namespace_client)
                  sample_NewLen SHA256 sample_Key (NewReset sample_config) []
                  (New "namespaces not found") eq_refl)).
Defined.

(** X20 with the cluster that refuses the write. *)
Lemma Run_secret_error_witness :
  fst (Run (client := read_only_client) sample_NewLen SHA256 sample_Key
         (NewReset sample_config) [])
    = Err (Join (New "secrets is forbidden")
             (New "could not update password in Kubernetes")) /\
  persisted (snd (Run (client := read_only_client) sample_NewLen SHA256 sample_Key
                    (NewReset sample_config) [])) = ∅.
Proof.
  destruct (Run_secret_error (client := read_only_client)
              sample_NewLen SHA256 sample_Key (NewReset sample_config) []
              {| UID := "6f2a9c1e-41d7-4c0b-9a57-3d0f8b2e7c11" |}
              (New "secrets is forbidden") eq_refl eq_refl)
    as (Hrun & _ & Hstore).
  split; [by rewrite Hrun|exact Hstore].
Defined.

(** X22 at [sample_config], for a secret of another namespace. *)
Lemma Run_keeps_other_secrets_witness :
  persisted (snd (sample_Run (NewReset sample_config) []))
    !! ("default", "everest-password") = None.
Proof.
  refine (Run_keeps_other_secrets sample_NewLen SHA256 sample_Key
            (NewReset sample_config) [] ("default", "everest-password") _).
  discriminate.
Defined.

End Password.
